(** * noesis2hzw: schema loader, type emitter and data transformer

    A shallow embedding of [src/types.ts], [src/structures.ts] and
    [src/datasets.ts].  The TypeScript sources receive the output of the XML
    parser as values of type [any]; their behaviour depends on the dynamic
    shape of those values (array or single object, string or number, present
    or [undefined]).  The embedding therefore starts with a small model of
    JavaScript values and of the handful of primitive operations the program
    applies to them, and then follows the three source files function by
    function. *)

From Stdlib Require Import String Ascii List ZArith Bool Arith Lia DecimalString.
Import ListNotations.
Open Scope string_scope.


Set Warnings "-register-all".

(* ================================================================== *)
(** * JavaScript values *)
(* ================================================================== *)

Module Js.

(** Numbers.  The parser's [parseNumbers] processor turns numeric text into
    JavaScript numbers; the program only stores them, tests them for
    truthiness and prints them.  Integers (of the size that prints in plain
    decimal) and [NaN] are represented; fractional values are outside this
    model. *)
Inductive number : Type :=
| NaN
| Int (z : Z).

(** Values.  Strings are sequences of 8-bit characters (the ASCII range of
    JavaScript's UTF-16 strings).  An object is the ordered list of its own
    enumerable properties; inherited prototype members are not modelled. *)
Inductive value : Type :=
| JUndef
| JNull
| JBool (b : bool)
| JNum (n : number)
| JStr (s : string)
| JArr (items : list value)
| JObj (fields : list (string * value)).

(** Exceptions raised by the program: the engine's [TypeError] (member access
    on [undefined]/[null], call of a missing method; its message differs
    between engines and is not recorded) and [new Error(message)]. *)
Inductive exn : Type :=
| TypeError
| Error (message : string).

(** The result of running a piece of code.  [Exhausted] is not a JavaScript
    result: it marks the recursion bound of [processDataStructure_rec] below
    and is shown never to be returned by [processDataStructure]. *)
Inductive outcome (A : Type) : Type :=
| Done (a : A)
| Thrown (e : exn)
| Exhausted.
Arguments Done {A} a.
Arguments Thrown {A} e.
Arguments Exhausted {A}.

(** ** Strings *)

Definition string_of_nat (n : nat) : string :=
  NilZero.string_of_uint (Nat.to_uint n).

Definition string_of_Z (z : Z) : string :=
  NilZero.string_of_int (Z.to_int z).

(** [" ".repeat(n)] *)
Fixpoint spaces (n : nat) : string :=
  match n with
  | O => ""
  | S k => String " " (spaces k)
  end.

Fixpoint drop (n : nat) (s : string) : string :=
  match n, s with
  | O, _ => s
  | S k, String _ s' => drop k s'
  | S _, EmptyString => EmptyString
  end.

(** [s.split(c)] for a one-character separator: always at least one piece. *)
Fixpoint split_on (c : ascii) (s : string) : list string :=
  match s with
  | EmptyString => [EmptyString]
  | String a s' =>
      if Ascii.eqb a c then EmptyString :: split_on c s'
      else match split_on c s' with
           | [] => [String a EmptyString]
           | p :: ps => String a p :: ps
           end
  end.

(** [s.split(c, limit)]: all the pieces are computed, then the first [limit]
    of them are kept. *)
Definition split_limit (c : ascii) (limit : nat) (s : string) : list string :=
  firstn limit (split_on c s).

(** [s.replace(pat, rep)] with a string pattern: only the first occurrence
    of [pat] is replaced. *)
Fixpoint replace_first (pat rep s : string) : string :=
  if prefix pat s then rep ++ drop (String.length pat) s
  else match s with
       | EmptyString => EmptyString
       | String a s' => String a (replace_first pat rep s')
       end.

(** [s.replace(/c/g, rep)] for a one-character pattern: every occurrence. *)
Fixpoint replace_all_char (c : ascii) (rep s : string) : string :=
  match s with
  | EmptyString => EmptyString
  | String a s' =>
      (if Ascii.eqb a c then rep else String a EmptyString)
        ++ replace_all_char c rep s'
  end.

(** [s.endsWith(suffix)] *)
Definition ends_with (suffix s : string) : bool :=
  let n := String.length s in
  let k := String.length suffix in
  Nat.leb k n && String.eqb (drop (n - k) s) suffix.

Fixpoint concat_strings (l : list string) : string :=
  match l with
  | [] => ""
  | s :: rest => s ++ concat_strings rest
  end.

(** [l.join(sep)] on strings *)
Fixpoint join (sep : string) (l : list string) : string :=
  match l with
  | [] => ""
  | [s] => s
  | s :: rest => s ++ sep ++ join sep rest
  end.

(** ** Conversions *)

Definition number_to_string (n : number) : string :=
  match n with
  | NaN => "NaN"
  | Int z => string_of_Z z
  end.

(** [`${v}`] and [String(v)].  An array prints its elements separated by
    commas, [undefined] and [null] elements as nothing; a plain object prints
    as [[object Object]]. *)
Fixpoint to_string (v : value) : string :=
  match v with
  | JUndef => "undefined"
  | JNull => "null"
  | JBool true => "true"
  | JBool false => "false"
  | JNum n => number_to_string n
  | JStr s => s
  | JArr items =>
      (fix go (l : list value) : string :=
         match l with
         | [] => ""
         | x :: rest =>
             let sx := match x with
                       | JUndef | JNull => ""
                       | _ => to_string x
                       end in
             match rest with
             | [] => sx
             | _ :: _ => sx ++ "," ++ go rest
             end
         end) items
  | JObj _ => "[object Object]"
  end.

(** The test of [if (v)]. *)
Definition truthy (v : value) : bool :=
  match v with
  | JUndef | JNull => false
  | JBool b => b
  | JNum NaN => false
  | JNum (Int z) => negb (Z.eqb z 0)
  | JStr s => negb (String.eqb s "")
  | JArr _ | JObj _ => true
  end.


(** [v === "s"] *)
Definition is_str (v : value) (s : string) : bool :=
  match v with
  | JStr t => String.eqb t s
  | _ => false
  end.

(** Parsing of a decimal integer literal, for [Number(s)].  Signs are
    accepted; the empty string is 0; anything else (white space, fractions,
    exponents, radix prefixes) is read as [NaN] here. *)
Definition digit_of (c : ascii) : option N :=
  let n := N_of_ascii c in
  if (48 <=? n)%N && (n <=? 57)%N then Some (n - 48)%N else None.

Fixpoint parse_digits (s : string) (acc : N) : option N :=
  match s with
  | EmptyString => Some acc
  | String c s' =>
      match digit_of c with
      | Some d => parse_digits s' (10 * acc + d)%N
      | None => None
      end
  end.

Definition parse_unsigned (s : string) : option N :=
  match s with
  | EmptyString => None
  | _ => parse_digits s 0%N
  end.

Definition string_to_number (s : string) : number :=
  match s with
  | EmptyString => Int 0
  | String "-" s' =>
      match parse_unsigned s' with
      | Some n => Int (- Z.of_N n)
      | None => NaN
      end
  | String "+" s' =>
      match parse_unsigned s' with
      | Some n => Int (Z.of_N n)
      | None => NaN
      end
  | _ =>
      match parse_unsigned s with
      | Some n => Int (Z.of_N n)
      | None => NaN
      end
  end.

(** [Number(v)] *)
Definition to_number (v : value) : number :=
  match v with
  | JUndef => NaN
  | JNull => Int 0
  | JBool true => Int 1
  | JBool false => Int 0
  | JNum n => n
  | JStr s => string_to_number s
  | JArr _ => string_to_number (to_string v)
  | JObj _ => NaN
  end.

(** ** Member access *)

(** An array index written as a property key: the canonical decimal form. *)
Definition index_of_key (k : string) : option nat :=
  match parse_unsigned k with
  | Some n =>
      if String.eqb (NilZero.string_of_uint (N.to_uint n)) k
      then Some (N.to_nat n) else None
  | None => None
  end.

Fixpoint lookup_field (k : string) (fields : list (string * value)) : value :=
  match fields with
  | [] => JUndef
  | (k', v) :: rest => if String.eqb k' k then v else lookup_field k rest
  end.

Definition char_at (s : string) (i : nat) : value :=
  match String.get i s with
  | Some c => JStr (String c EmptyString)
  | None => JUndef
  end.

(** [v[k]] (and [v.k]).  Reading a member of [undefined] or [null] throws;
    a missing member reads as [undefined]. *)
Definition get (v : value) (k : string) : outcome value :=
  match v with
  | JUndef | JNull => Thrown TypeError
  | JBool _ | JNum _ => Done JUndef
  | JStr s =>
      if String.eqb k "length" then Done (JNum (Int (Z.of_nat (String.length s))))
      else match index_of_key k with
           | Some i => Done (char_at s i)
           | None => Done JUndef
           end
  | JArr items =>
      if String.eqb k "length" then Done (JNum (Int (Z.of_nat (List.length items))))
      else match index_of_key k with
           | Some i => Done (nth i items JUndef)
           | None => Done JUndef
           end
  | JObj fields => Done (lookup_field k fields)
  end.

(** [v[0]] *)
Definition get0 (v : value) : outcome value := get v "0".

(** [v.split(".")]-style method calls exist on strings only. *)
Definition split (v : value) (c : ascii) : outcome (list string) :=
  match v with
  | JStr s => Done (split_on c s)
  | _ => Thrown TypeError
  end.

(** [l[l.length - 1]] *)
Definition last_piece (l : list string) : value :=
  match rev l with
  | [] => JUndef
  | s :: _ => JStr s
  end.

(** [Object.keys(v)].  The keys of an object come in insertion order (XML
    names are never array indices, which would come first). *)
Definition object_keys (v : value) : outcome (list string) :=
  match v with
  | JUndef | JNull => Thrown TypeError
  | JBool _ | JNum _ => Done []
  | JStr s => Done (map string_of_nat (seq 0 (String.length s)))
  | JArr items => Done (map string_of_nat (seq 0 (List.length items)))
  | JObj fields => Done (map fst fields)
  end.

(** Nesting depth, the measure that bounds the recursion of the data
    transformer. *)
Fixpoint depth (v : value) : nat :=
  match v with
  | JArr items =>
      S ((fix go (l : list value) : nat :=
            match l with
            | [] => 0
            | x :: rest => Nat.max (depth x) (go rest)
            end) items)
  | JObj fields =>
      S ((fix go (l : list (string * value)) : nat :=
            match l with
            | [] => 0
            | (_, x) :: rest => Nat.max (depth x) (go rest)
            end) fields)
  | _ => 0
  end.

(** ** The console and the effect monad *)

Inductive level : Type := LLog | LWarn | LError.

(** The observable effects, in the order in which they happen.  [Console] is
    one console call: its level, its text and, for the one call that prints
    [util.inspect(data, { depth: null })] after the text, the inspected
    value.  [Written] is one output file: the stream's path and everything
    written to it before it is closed. *)
Inductive entry : Type :=
| Console (lvl : level) (text : string) (inspected : option value)
| Written (path : string) (content : string).

Definition M (A : Type) : Type := (list entry * outcome A)%type.

Definition ret {A} (a : A) : M A := ([], Done a).

Definition bind {A B} (m : M A) (f : A -> M B) : M B :=
  match m with
  | (l, Done a) => let '(l', r) := f a in ((l ++ l')%list, r)
  | (l, Thrown e) => (l, Thrown e)
  | (l, Exhausted) => (l, Exhausted)
  end.

Definition lift {A} (o : outcome A) : M A := ([], o).

Definition throw {A} (e : exn) : M A := ([], Thrown e).

Definition console (l : level) (t : string) : M unit :=
  ([Console l t None], Done tt).

Definition console_inspect (l : level) (t : string) (v : value) : M unit :=
  ([Console l t (Some v)], Done tt).

Definition write_file (path content : string) : M unit :=
  ([Written path content], Done tt).

(** [if (isVerbose) console.log(t)] *)
Definition verbose (isVerbose : bool) (t : string) : M unit :=
  if isVerbose then console LLog t else ret tt.

(** [try { m } catch (e) { h e }] *)
Definition try_catch {A} (m : M A) (h : exn -> M A) : M A :=
  match m with
  | (l, Thrown e) => let '(l', r) := h e in ((l ++ l')%list, r)
  | _ => m
  end.

(** [`${e}`] for a caught exception. *)
Definition exn_to_string (e : exn) : string :=
  match e with
  | TypeError => "TypeError"
  | Error m => "Error: " ++ m
  end.

(** [l.forEach(x => { acc = f(acc, x) })] with effects. *)
Fixpoint foldM {A B} (f : A -> B -> M A) (acc : A) (l : list B) : M A :=
  match l with
  | [] => ret acc
  | x :: rest => bind (f acc x) (fun acc' => foldM f acc' rest)
  end.

(** ** [Map]: insertion-ordered, keys compared by SameValueZero *)

(** Two primitives are the same key when they are equal; objects and arrays
    are keys by identity, and the nodes produced by the parser are pairwise
    distinct, so they are never the same key. *)
Definition same_key (a b : value) : bool :=
  match a, b with
  | JUndef, JUndef => true
  | JNull, JNull => true
  | JBool x, JBool y => Bool.eqb x y
  | JNum NaN, JNum NaN => true
  | JNum (Int x), JNum (Int y) => Z.eqb x y
  | JStr x, JStr y => String.eqb x y
  | _, _ => false
  end.

Definition jsmap (V : Type) : Type := list (value * V).

Fixpoint map_get {V} (k : value) (m : jsmap V) : option V :=
  match m with
  | [] => None
  | (k', v) :: rest => if same_key k' k then Some v else map_get k rest
  end.

(** [m.set(k, v)]: an existing key keeps its position and takes the new
    value; a new key goes last. *)
Fixpoint map_set {V} (k : value) (v : V) (m : jsmap V) : jsmap V :=
  match m with
  | [] => [(k, v)]
  | (k', v') :: rest =>
      if same_key k' k then (k', v) :: rest
      else (k', v') :: map_set k v rest
  end.

End Js.

Import Js.

Declare Scope js_scope.
Notation "x <- m ;; k" := (bind m (fun x => k))
  (at level 61, m at next level, right associativity) : js_scope.
Notation "m ;;; k" := (bind m (fun _ => k))
  (at level 61, right associativity) : js_scope.
Open Scope js_scope.

(* ================================================================== *)
(** * [src/types.ts] *)
(* ================================================================== *)

Module Types.

(** [NoesisProperty].  The fields hold whatever the loader read from the
    schema: the declared types are [string] and [number], the run-time values
    can be [undefined] (a missing attribute). *)
Inductive NoesisProperty : Type :=
| PBoolean
| PCommand
| PBrush
| PFont
| PString (stringMinWordCount stringMaxWordCount : value)
| PNumber (numberMinValue numberMaxValue numberDecimalCount : value)
| PObject (subType : value)
| PImage (imageSourcePath : value)
| PEnum (subType : value)
| PCollection (subType : value).

Record NoesisClass : Type := {
  class_name : value;
  properties : jsmap NoesisProperty
}.

Record NoesisEnum : Type := {
  enum_name : value;
  items : jsmap number
}.

Record NoesisBuiltIn : Type := {
  builtin_name : string
}.

(** [NoesisClass | NoesisEnum | NoesisBuiltIn], discriminated by [type]. *)
Inductive Structure : Type :=
| Class (c : NoesisClass)
| Enum (e : NoesisEnum)
| BuiltIn (b : NoesisBuiltIn).

(** [structure.name] *)
Definition name (s : Structure) : value :=
  match s with
  | Class c => class_name c
  | Enum e => enum_name e
  | BuiltIn b => JStr (builtin_name b)
  end.

Definition NoesisBuiltInEnums : list (string * list string) :=
  [ ("Visibility", ["Collapsed"; "Visible"; "Hidden"]);
    ("Orientation", ["Horizontal"; "Vertical"]);
    ("HorizontalAlignment", ["Left"; "Center"; "Right"; "Stretch"]);
    ("VerticalAlignment", ["Top"; "Center"; "Bottom"; "Stretch"]);
    ("TextAlignment", ["Left"; "Center"; "Right"; "Justify"]);
    ("TextWrapping", ["NoWrap"; "Wrap"; "WrapWithOverflow"]);
    ("TextTrimming", ["None"; "CharacterEllipsis"; "WordEllipsis"]);
    ("FlowDirection", ["LeftToRight"; "RightToLeft"]);
    ("FontFamily", ["Anton"; "Bangers"; "Oswald"; "Roboto"; "Roboto-Mono"]) ].

Definition NoesisBuiltInSubTypes : list string :=
  [ "Single"; "Boolean"; "String"; "Color"; "BitmapImage"; "SolidColorBrush";
    "MessageCommand" ].

Definition noesisSubtypeToTSConverter (type : value) : value :=
  if is_str type "Single" then JStr "number"
  else if is_str type "String" then JStr "string"
  else if is_str type "Bool" then JStr "boolean"
  else if is_str type "ImageSource" then JStr "string | ImageSource"
  else if is_str type "Brush" then JStr "string | Brush"
  else if is_str type "BaseCommand" then JStr "(parameter?: unknown) => unknown"
  else type.

Definition noesisSubtypeToNoesisTypeConverter (type : value) : value :=
  if is_str type "Bool" then JStr "Boolean"
  else if is_str type "ImageSource" then JStr "BitmapImage"
  else if is_str type "Brush" then JStr "SolidColorBrush"
  else if is_str type "BaseCommand" then JStr "MessageCommand"
  else type.

Definition NoesisStructureMap : Type := jsmap Structure.

End Types.

Import Types.

(* ================================================================== *)
(** * [src/structures.ts] *)
(* ================================================================== *)

Module Structures.

Definition processProperty (property : value) : M NoesisProperty :=
  subType <- lift (get property "SubType") ;;
  subTypeParts <- lift (if truthy subType then split subType "." else Done []) ;;
  type <- lift (get property "Type") ;;
  if is_str type "Object" then
    if is_str subType "Brush" then ret PBrush
    else if is_str subType "ImageSource" then
      imageSourcePath <- lift (get property "ImageSourcePath") ;;
      ret (PImage imageSourcePath)
    else if is_str subType "FontFamily" then ret PFont
    else ret (PObject (last_piece subTypeParts))
  else if is_str type "Enum" then ret (PEnum (last_piece subTypeParts))
  else if is_str type "String" then
    stringMinWordCount <- lift (get property "StringMinWordCount") ;;
    stringMaxWordCount <- lift (get property "StringMaxWordCount") ;;
    ret (PString stringMinWordCount stringMaxWordCount)
  else if is_str type "Number" then
    numberMinValue <- lift (get property "NumberMinValue") ;;
    numberMaxValue <- lift (get property "NumberMaxValue") ;;
    numberDecimalCount <- lift (get property "NumberDecimalCount") ;;
    ret (PNumber numberMinValue numberMaxValue numberDecimalCount)
  else if is_str type "Boolean" then ret PBoolean
  else if is_str type "Collection" then
    ret (PCollection (last_piece subTypeParts))
  else if is_str type "Command" then ret PCommand
  else throw (Error ("Unknown property type: " ++ to_string type)).

(** The [try { ... } catch (e) { console.error(...) }] block that both
    branches of [processClassStructure] run on one property declaration
    [prop]; [props] is [noesisClass.properties] before and the result is that
    map after. *)
Definition tryProperty (data : value) (props : jsmap NoesisProperty)
    (prop : value) : M (jsmap NoesisProperty) :=
  try_catch
    (property <- processProperty prop ;;
     propName <- lift (get prop "Name") ;;
     ret (map_set propName property props))
    (fun e =>
       propName <- lift (get prop "Name") ;;
       cls <- lift (get data "Class") ;;
       className <- lift (get cls "Name") ;;
       console LError ("Error processing property " ++ to_string propName
                       ++ " of class " ++ to_string className
                       ++ ": " ++ exn_to_string e) ;;;
       ret props).

Definition processClassStructure (data : value) : M NoesisClass :=
  cls <- lift (get data "Class") ;;
  className <- lift (get cls "Name") ;;
  property <- lift (get cls "Property") ;;
  props <- match property with
           | JArr declarations => foldM (tryProperty data) [] declarations
           | _ => tryProperty data [] property
           end ;;
  ret {| class_name := className; properties := props |}.

(** [data.Enum.Item.forEach(...)]: [forEach] exists on arrays only. *)
Definition processEnumStructure (data : value) : M NoesisEnum :=
  enum <- lift (get data "Enum") ;;
  enumName <- lift (get enum "Name") ;;
  item <- lift (get enum "Item") ;;
  match item with
  | JArr declarations =>
      members <- foldM (fun members item =>
                          itemName <- lift (get item "Name") ;;
                          itemValue <- lift (get item "Value") ;;
                          ret (map_set itemName (to_number itemValue) members))
                       [] declarations ;;
      ret {| enum_name := enumName; items := members |}
  | _ => throw TypeError
  end.

(** The enum built for one entry of [NoesisBuiltInEnums]. *)
Definition builtInEnum (name : string) (members : list string) : NoesisEnum :=
  {| enum_name := JStr name;
     items := fold_left
                (fun m ix => map_set (JStr (snd ix)) (Int (Z.of_nat (fst ix))) m)
                (combine (seq 0 (List.length members)) members) [] |}.

Definition addBuiltInEnums (structures : NoesisStructureMap)
  : NoesisStructureMap :=
  fold_left
    (fun m e => map_set (JStr (fst e)) (Enum (builtInEnum (fst e) (snd e))) m)
    NoesisBuiltInEnums structures.

Definition addBuiltInTypes (structures : NoesisStructureMap)
  : NoesisStructureMap :=
  fold_left
    (fun m typeName =>
       map_set (JStr typeName) (BuiltIn {| builtin_name := typeName |}) m)
    NoesisBuiltInSubTypes structures.

(** One iteration of the loop of [readStructures] over the directory
    listing: [file] is the entry's name and [result] what the XML parser
    returns for its content. *)
Definition readStructureFile (isVerbose : bool)
    (structures : NoesisStructureMap) (entry : string * value)
  : M NoesisStructureMap :=
  let '(file, result) := entry in
  if ends_with ".xml" file then
    verbose isVerbose ("- " ++ file) ;;;
    cls <- lift (get result "Class") ;;
    if truthy cls then
      structure <- processClassStructure result ;;
      ret (map_set (class_name structure) (Class structure) structures)
    else
      enum <- lift (get result "Enum") ;;
      if truthy enum then
        structure <- processEnumStructure result ;;
        ret (map_set (enum_name structure) (Enum structure) structures)
      else
        console LError ("Unknown structure type in file: " ++ file) ;;;
        ret structures
  else ret structures.

(** [readStructures].  [structureFiles] stands for the directory
    [dataPath/structures]: its entries in the order of [readdirSync], each
    with the parsed tree of its content. *)
Definition readStructures (structureFiles : list (string * value))
    (dataPath : string) (isVerbose : bool) : M NoesisStructureMap :=
  let structures := addBuiltInEnums (addBuiltInTypes []) in
  let structuresDir := dataPath ++ "/structures" in
  verbose isVerbose ("Reading structures from: " ++ structuresDir) ;;;
  structures <- foldM (readStructureFile isVerbose) structures structureFiles ;;
  verbose isVerbose ("Loaded " ++ string_of_nat (List.length structures)
                     ++ " structures.") ;;;
  ret structures.

(** The [switch (property.type)] of [outputTypes]. *)
Definition propertyType (property : NoesisProperty) : string :=
  match property with
  | PString _ _ => "string"
  | PNumber _ _ _ => "number"
  | PBoolean => "boolean"
  | PCommand => "(parameter?: unknown) => unknown"
  | PObject subType => to_string (noesisSubtypeToTSConverter subType)
  | PImage _ => "string | ImageSource"
  | PBrush => "string | Brush"
  | PFont => "FontFamily"
  | PEnum subType => to_string (noesisSubtypeToTSConverter subType)
  | PCollection subType =>
      "Array<" ++ to_string (noesisSubtypeToTSConverter subType) ++ ">"
  end.

Definition newline : string := String (ascii_of_nat 10) EmptyString.
Definition quote : string := String (ascii_of_nat 34) EmptyString.

(** What the callback of [structures.forEach] in [outputTypes] writes for
    one structure. *)
Definition outputStructure (indent : string) (structure : Structure) : string :=
  match structure with
  | Class c =>
      "// Definition for structure " ++ to_string (class_name c) ++ newline
      ++ "export type " ++ to_string (class_name c) ++ " = {" ++ newline
      ++ concat_strings
           (map (fun p => indent ++ to_string (fst p) ++ ": "
                          ++ propertyType (snd p) ++ ";" ++ newline)
                (properties c))
      ++ "}" ++ newline ++ newline
  | Enum e =>
      "// Definition for enum " ++ to_string (enum_name e) ++ newline
      ++ "export enum " ++ to_string (enum_name e) ++ " {" ++ newline
      ++ concat_strings
           (map (fun i => indent ++ quote ++ to_string (fst i) ++ quote ++ " = "
                          ++ quote ++ to_string (fst i) ++ quote ++ "," ++ newline)
                (items e))
      ++ "}" ++ newline ++ newline
  | BuiltIn _ => ""
  end.

Definition typesPreamble : string :=
  "// Auto-generated TypeScript definitions for Noesis structures" ++ newline ++ newline
  ++ "import { ImageSource } from " ++ quote ++ "horizon/ui" ++ quote ++ ";" ++ newline ++ newline
  ++ "// Complex brushes not yet supported" ++ newline
  ++ "export type Brush = never;" ++ newline ++ newline.

(** The text written to [NoesisTypes.ts]. *)
Definition typesText (structures : NoesisStructureMap) (indentLevel : nat)
  : string :=
  typesPreamble
  ++ concat_strings (map (fun s => outputStructure (spaces indentLevel) (snd s))
                         structures).

Definition outputTypes (structures : NoesisStructureMap) (scriptsPath : string)
    (isVerbose : bool) (indentLevel : nat) : M unit :=
  verbose isVerbose
    ("Writing TypeScript definitions for " ++ string_of_nat (List.length structures)
     ++ " Noesis structures to " ++ scriptsPath ++ "/NoesisTypes.ts") ;;;
  foldM (fun (_ : unit) s => verbose isVerbose ("- " ++ to_string (name (snd s))))
        tt structures ;;;
  write_file (scriptsPath ++ "/NoesisTypes.ts") (typesText structures indentLevel).

End Structures.

Import Structures.

(* ================================================================== *)
(** * [src/datasets.ts] *)
(* ================================================================== *)

Module Datasets.

Definition processCommand (indent : string) (commandData : value)
    (indentLevel : nat) : M string :=
  let subIndent := indent ++ spaces indentLevel in
  message <- lift (get commandData "Message") ;;
  ret ("(parameter?: unknown) => {" ++ newline
       ++ subIndent ++ "console.log(" ++ quote ++ to_string message ++ quote
       ++ ", parameter ? parameter : " ++ quote ++ quote ++ ");" ++ newline
       ++ indent ++ "}").

(** [str.replace(/"/g, '\\"')]: [replace] exists on strings only. *)
Definition escapeString (str : value) : M string :=
  match str with
  | JStr s => ret (replace_all_char (ascii_of_nat 34) ("\" ++ quote) s)
  | _ => throw TypeError
  end.

(** [imageSource.split(";", 2)[1]?.replace("component/", "")], the expression
    shared by the [Image] property and the [BitmapImage] built-in: [None] is
    [undefined]. *)
Definition imagePathOf (imageSource : value) : M (option string) :=
  match imageSource with
  | JStr s =>
      ret (match nth_error (split_limit ";" 2 s) 1 with
           | Some part => Some (replace_first "component/" "" part)
           | None => None
           end)
  | _ => throw TypeError
  end.

(** [if (imagePath)] *)
Definition nonempty (imagePath : option string) : option string :=
  match imagePath with
  | Some EmptyString | None => None
  | Some p => Some p
  end.

Section Recursion.

(** The recursive call [processDataStructure(structures, ...)] made from
    [processArray] and from the [Object] case, taking the indent, the
    structure type, the data and the indent level. *)
Variable processDataStructure : string -> value -> value -> nat -> M string.

Definition processArray (indent : string) (itemType : value)
    (itemsData : list value) (indentLevel : nat) : M string :=
  let subIndent := indent ++ spaces indentLevel in
  foldM (fun result itemData =>
           item <- processDataStructure subIndent itemType itemData indentLevel ;;
           let itemString := subIndent ++ item in
           ret (result ++ itemString ++ "," ++ newline))
        "" itemsData.

(** The [switch (property.type)] inside the callback of
    [structure.properties.forEach]: the text of [value] for one property. *)
Definition propertyValue (structureName : value) (subIndent : string)
    (data : value) (indentLevel : nat) (propName : value)
    (property : NoesisProperty) : M string :=
  propValue <- lift (get data (to_string propName)) ;;
  objectPropValue <-
    lift (get data (to_string structureName ++ "." ++ to_string propName)) ;;
  match property with
  | PString _ _ =>
      if truthy propValue then
        first <- lift (get0 propValue) ;;
        escaped <- escapeString first ;;
        ret (quote ++ escaped ++ quote)
      else ret (quote ++ quote)
  | PNumber _ _ _ =>
      if truthy propValue then
        first <- lift (get0 propValue) ;;
        ret (to_string first)
      else ret "0"
  | PBoolean =>
      if truthy propValue then
        first <- lift (get0 propValue) ;;
        ret (to_string first)
      else ret "false"
  | PEnum subType =>
      if truthy propValue then
        ret (to_string subType ++ "." ++ to_string propValue)
      else ret ("undefined as any as " ++ to_string subType)
  | PFont =>
      if truthy propValue then
        first <- lift (get0 propValue) ;;
        ret ("FontFamily." ++ to_string first)
      else ret "FontFamily.Bangers"
  | PObject subType =>
      if truthy objectPropValue then
        wrapper <- lift (get0 objectPropValue) ;;
        nested <- lift (get wrapper (to_string subType)) ;;
        structureData <- lift (get0 nested) ;;
        processDataStructure subIndent subType structureData indentLevel
      else ret ("undefined as any as " ++ to_string subType)
  | PImage _ =>
      if truthy propValue then
        imageSource <- lift (get0 propValue) ;;
        imagePath <- imagePathOf imageSource ;;
        match nonempty imagePath with
        | Some path => ret (quote ++ path ++ quote)
        | None =>
            console LWarn ("Image path not found for property "
                           ++ to_string propName ++ " of structure "
                           ++ to_string structureName ++ ": "
                           ++ to_string imageSource) ;;;
            ret (quote ++ quote)
        end
      else ret (quote ++ quote)
  | PBrush =>
      if truthy propValue then
        first <- lift (get0 propValue) ;;
        ret (quote ++ to_string first ++ quote)
      else ret (quote ++ quote)
  | PCollection subType =>
      if truthy objectPropValue then
        let collectionType := noesisSubtypeToNoesisTypeConverter subType in
        wrapper <- lift (get0 objectPropValue) ;;
        itemsData <- lift (get wrapper (to_string collectionType)) ;;
        match itemsData with
        | JArr elements =>
            encoded <- processArray subIndent collectionType elements indentLevel ;;
            ret ("[" ++ newline ++ encoded ++ subIndent ++ "]")
        | _ =>
            console_inspect LWarn
              ("Expected array for collection property " ++ to_string propName
               ++ " type " ++ to_string collectionType ++ " of structure "
               ++ to_string structureName ++ newline) data ;;;
            ret "[]"
        end
      else ret "[]"
  | PCommand =>
      if truthy objectPropValue then
        commandData <- lift (get0 objectPropValue) ;;
        messageCommand <- lift (get commandData "MessageCommand") ;;
        if truthy messageCommand then
          first <- lift (get0 messageCommand) ;;
          processCommand subIndent first indentLevel
        else
          console LWarn ("Unknown command type for property "
                         ++ to_string propName ++ " of structure "
                         ++ to_string structureName ++ ": "
                         ++ to_string commandData) ;;;
          ret "() => { console.warn('Command type not recognized'); }"
      else ret "() => { console.warn('Command not defined'); }"
  end.

(** The [Class] branch: one line per property, in the order of the map. *)
Definition classLiteral (structureName : value) (indent : string)
    (data : value) (indentLevel : nat) (structure : NoesisClass) : M string :=
  let subIndent := indent ++ spaces indentLevel in
  result <- foldM (fun result p =>
                     value <- propertyValue structureName subIndent data
                                indentLevel (fst p) (snd p) ;;
                     ret (result ++ subIndent ++ to_string (fst p) ++ ": "
                          ++ value ++ "," ++ newline))
                  ("{" ++ newline) (properties structure) ;;
  ret (result ++ indent ++ "}").

(** The [BuiltIn] branch. *)
Definition builtInLiteral (structureName : value) (indent : string)
    (data : value) (indentLevel : nat) (structure : NoesisBuiltIn) : M string :=
  let name := builtin_name structure in
  if String.eqb name "Single" then ret (to_string data)
  else if String.eqb name "Boolean" then ret (to_string data)
  else if String.eqb name "String" then
    escaped <- escapeString data ;;
    ret (quote ++ escaped ++ quote)
  else if String.eqb name "Color" then ret (to_string data)
  else if String.eqb name "BitmapImage" then
    uriSource <- lift (get data "UriSource") ;;
    imageSource <- lift (get0 uriSource) ;;
    imagePath <- imagePathOf imageSource ;;
    match nonempty imagePath with
    | Some path => ret (quote ++ path ++ quote)
    | None =>
        console LWarn ("Image path not found fo built-in structure "
                       ++ to_string structureName ++ ": "
                       ++ to_string imageSource) ;;;
        ret ""
    end
  else if String.eqb name "SolidColorBrush" then
    color <- lift (get data "Color") ;;
    first <- lift (get0 color) ;;
    ret (quote ++ to_string first ++ quote)
  else if String.eqb name "MessageCommand" then
    processCommand indent data indentLevel
  else
    console LError ("Unknown built-in: " ++ name) ;;;
    ret "".

(** The body of [processDataStructure]. *)
Definition processDataStructureBody (structures : NoesisStructureMap)
    (indent : string) (structureType : value) (data : value)
    (indentLevel : nat) : M string :=
  structureNameParts <- lift (split structureType ".") ;;
  let structureName := last_piece structureNameParts in
  match map_get structureName structures with
  | Some (Class structure) =>
      classLiteral structureName indent data indentLevel structure
  | Some (Enum structure) =>
      ret (to_string (enum_name structure) ++ "." ++ to_string data)
  | Some (BuiltIn structure) =>
      builtInLiteral structureName indent data indentLevel structure
  | None =>
      console LError ("Unknown structure type for data: "
                      ++ to_string structureName) ;;;
      ret ""
  end.

End Recursion.

(** [processDataStructure] with its recursion bounded by [fuel] nested
    calls. *)
Fixpoint processDataStructure_rec (fuel : nat) (structures : NoesisStructureMap)
    (indent : string) (structureType : value) (data : value)
    (indentLevel : nat) {struct fuel} : M string :=
  match fuel with
  | O => ([], Exhausted)
  | S fuel' =>
      processDataStructureBody
        (processDataStructure_rec fuel' structures)
        structures indent structureType data indentLevel
  end.

(** Every nested call descends into the data, so the nesting depth of the
    data bounds the recursion. *)
Definition processDataStructure (structures : NoesisStructureMap)
    (indent : string) (structureType : value) (data : value)
    (indentLevel : nat) : M string :=
  processDataStructure_rec (S (depth data)) structures indent structureType
    data indentLevel.

(** [structures.values().filter(v => v.type !== "BuiltIn").map(v => v.name)] *)
Definition importNames (structures : NoesisStructureMap) : list value :=
  map (fun s => name (snd s))
      (filter (fun s => match snd s with BuiltIn _ => false | _ => true end)
              structures).

(** [names.join(", ")]: [undefined] and [null] print as nothing. *)
Definition joinNames (names : list value) : string :=
  join ", " (map (fun v => match v with
                           | JUndef | JNull => ""
                           | _ => to_string v
                           end) names).

(** The text written to the data module of [file]. *)
Definition moduleText (structures : NoesisStructureMap) (file : string)
    (structureType : value) (dataSet : string) : string :=
  "// Auto-generated data context from Noesis data set: " ++ file
  ++ newline ++ newline
  ++ "import { " ++ joinNames (importNames structures) ++ " } from "
  ++ quote ++ "./NoesisTypes" ++ quote ++ ";" ++ newline ++ newline
  ++ "export const dataContext: " ++ to_string structureType ++ " = "
  ++ dataSet ++ ";" ++ newline.

Fixpoint find_file (file : string) (dir : list (string * value))
  : option value :=
  match dir with
  | [] => None
  | (f, v) :: rest => if String.eqb f file then Some v else find_file file rest
  end.

(** One iteration of the loop of [outputDataSets] for the data file [file].
    [sets] stands for the directory [dataPath/sets]: its entries in the order
    of [readdirSync], each with the parsed tree of its content.  Reading a
    file that is not there throws. *)
Definition outputDataSet (sets : list (string * value))
    (structures : NoesisStructureMap) (dataPath scriptPath : string)
    (isVerbose : bool) (indentLevel : nat) (file : string) : M unit :=
  verbose isVerbose ("- reading " ++ file) ;;;
  result <- match find_file file sets with
            | Some result => ret result
            | None => throw (Error ("ENOENT: " ++ dataPath ++ "/sets/" ++ file))
            end ;;
  keys <- lift (object_keys result) ;;
  let structureType := match keys with
                       | [] => JUndef
                       | k :: _ => JStr k
                       end in
  root <- lift (get result (to_string structureType)) ;;
  dataSet <- processDataStructure structures "" structureType root indentLevel ;;
  let tsFile := replace_first ".xaml" ".ts" file in
  verbose isVerbose ("- writing " ++ tsFile) ;;;
  write_file (scriptPath ++ "/" ++ tsFile)
             (moduleText structures file structureType dataSet).

(** [setName ? [setName + ".xaml"] : readdirSync(dataDir).filter(...)] *)
Definition dataFiles (sets : list (string * value)) (setName : option string)
  : list string :=
  match setName with
  | Some (String c n) => [String c n ++ ".xaml"]
  | _ => filter (ends_with ".xaml") (map fst sets)
  end.

Definition outputDataSets (sets : list (string * value))
    (structures : NoesisStructureMap) (dataPath scriptPath : string)
    (setName : option string) (isVerbose : bool) (indentLevel : nat) : M unit :=
  verbose isVerbose ("Writing Data Sets to " ++ scriptPath) ;;;
  foldM (fun (_ : unit) file =>
           outputDataSet sets structures dataPath scriptPath isVerbose
             indentLevel file)
        tt (dataFiles sets setName).

End Datasets.

Import Datasets.

(* ================================================================== *)
(** * [src/cli.ts] *)
(* ================================================================== *)

(** The action of the command: load the schema, emit the types and, unless
    [--types-only] is given, the data modules. *)
Definition main (structureFiles sets : list (string * value))
    (noesisProjectPath outputDirectory : string) (setName : option string)
    (verboseOption typesOnly : bool) (indentLevel : nat) : M unit :=
  verbose verboseOption "Verbose logging enabled" ;;;
  let dataPath := noesisProjectPath ++ "/.noesis/data" in
  structures <- readStructures structureFiles dataPath verboseOption ;;
  outputTypes structures outputDirectory verboseOption indentLevel ;;;
  if typesOnly then ret tt
  else outputDataSets sets structures dataPath outputDirectory setName
         verboseOption indentLevel.

(* ================================================================== *)
(** * Vocabulary of the specification *)
(* ================================================================== *)

(** [contains c s]: the character [c] occurs in [s]. *)
Fixpoint contains (c : ascii) (s : string) : bool :=
  match s with
  | EmptyString => false
  | String a s' => Ascii.eqb a c || contains c s'
  end.

(** A run that returns or throws, as opposed to reaching the recursion
    bound. *)
Definition terminates {A} (m : M A) : Prop := snd m <> Exhausted.

(** A run without console output or files. *)
Definition silent {A} (m : M A) : Prop := fst m = [].

(** [segment] is the final dot-separated segment of [qualified]. *)
Definition finalSegmentOf (qualified segment : string) : Prop :=
  contains "." segment = false
  /\ (qualified = segment
      \/ exists qualifier, qualified = qualifier ++ "." ++ segment).

(** One member of an emitted enumeration: the item's name, as the member and
    as its string value. *)
Definition enumMember (indent : string) (itemName : value) : string :=
  indent ++ quote ++ to_string itemName ++ quote ++ " = "
  ++ quote ++ to_string itemName ++ quote ++ "," ++ newline.

(** The declaration of an enumeration with the given member names. *)
Definition enumDeclaration (indent : string) (enumName : value)
    (itemNames : list value) : string :=
  "// Definition for enum " ++ to_string enumName ++ newline
  ++ "export enum " ++ to_string enumName ++ " {" ++ newline
  ++ concat_strings (map (enumMember indent) itemNames)
  ++ "}" ++ newline ++ newline.

(** The property declarations of a class source: the parser gives a list
    when there are several [Property] children and the child itself when
    there is one. *)
Definition declarations (property : value) : list value :=
  match property with
  | JArr l => l
  | v => [v]
  end.

(** The [Type] values that [processProperty] recognizes. *)
Definition recognizedType (type : value) : bool :=
  is_str type "Object" || is_str type "Enum" || is_str type "String"
  || is_str type "Number" || is_str type "Boolean"
  || is_str type "Collection" || is_str type "Command".

(** A node of the parsed tree that is an element (an object), as opposed to
    text. *)
Definition isElement (v : value) : Prop := exists fields, v = JObj fields.

(** [d.Name] of a declaration. *)
Definition declaredName (d : value) : value :=
  match get d "Name" with
  | Done n => n
  | _ => JUndef
  end.

(** The properties of a class whose declarations are [decls]: those that
    [processProperty] classifies, under their names, in order. *)
Definition survivingProperties (decls : list value) : jsmap NoesisProperty :=
  fold_left
    (fun props d =>
       match snd (processProperty d) with
       | Done p => map_set (declaredName d) p props
       | _ => props
       end)
    decls [].

(** The error line for a declaration that [processProperty] rejects. *)
Definition propertyError (className d : value) (e : exn) : entry :=
  Console LError
    ("Error processing property " ++ to_string (declaredName d)
     ++ " of class " ++ to_string className ++ ": " ++ exn_to_string e)
    None.

(** The error lines of a class source, one per rejected declaration. *)
Definition propertyErrors (className : value) (decls : list value)
  : list entry :=
  flat_map
    (fun d =>
       match snd (processProperty d) with
       | Thrown e => [propertyError className d e]
       | _ => []
       end)
    decls.

(** An enum source with a single [Item] child, as the parser (which does not
    wrap single children in arrays when reading schemas) returns it for
    [<Enum Name="Suit"><Item Name="Hearts" Value="0"/></Enum>]. *)
Definition singleItemEnum : value :=
  JObj [("Enum", JObj [("Name", JStr "Suit");
                       ("Item", JObj [("Name", JStr "Hearts");
                                      ("Value", JNum (Int 0))])])].

(** A class source with a single [Property] child. *)
Definition singlePropertyClass : value :=
  JObj [("Class", JObj [("Name", JStr "Card");
                        ("Property", JObj [("Name", JStr "Title");
                                           ("Type", JStr "String")])])].

(** The path of the data module written for the data file [file]. *)
Definition modulePath (scriptPath file : string) : string :=
  scriptPath ++ "/" ++ replace_first ".xaml" ".ts" file.

(** The specification's reading of an unresolved root type: the
    transformation of that data file is aborted and no data module is
    produced for it. *)
Definition unresolvedRootWritesNothing : Prop :=
  forall sets structures dataPath scriptPath setName isVerbose indentLevel
         file rootName rootData rest content,
    In file (dataFiles sets setName) ->
    find_file file sets = Some (JObj ((rootName, rootData) :: rest)) ->
    map_get (last_piece (split_on "." rootName)) structures = None ->
    ~ In (Written (modulePath scriptPath file) content)
         (fst (outputDataSets sets structures dataPath scriptPath setName
                 isVerbose indentLevel)).













(** No two entries of a map are under the same key. *)
Fixpoint uniqueKeys {V} (m : jsmap V) : Prop :=
  match m with
  | [] => True
  | (k, _) :: rest => map_get k rest = None /\ uniqueKeys rest
  end.

(** The registry before any schema file is read. *)
Definition builtIns : NoesisStructureMap :=
  addBuiltInEnums (addBuiltInTypes []).

(** What one entry of the structures directory registers, if it registers
    anything: the structure built from it, under its name. *)
Definition registrationOf (entry : string * value)
  : option (value * Structure) :=
  if ends_with ".xml" (fst entry) then
    match get (snd entry) "Class" with
    | Done cls =>
        if truthy cls then
          match snd (processClassStructure (snd entry)) with
          | Done c => Some (class_name c, Class c)
          | _ => None
          end
        else
          match get (snd entry) "Enum" with
          | Done enum =>
              if truthy enum then
                match snd (processEnumStructure (snd entry)) with
                | Done e => Some (enum_name e, Enum e)
                | _ => None
                end
              else None
          | _ => None
          end
    | _ => None
    end
  else None.

(** The registrations of a directory listing, in order. *)
Definition registrationsOf (files : list (string * value))
  : list (value * Structure) :=
  flat_map (fun f => match registrationOf f with
                     | Some r => [r]
                     | None => []
                     end) files.

(** The last registration under the key [k], if there is one. *)
Definition lastRegistration (k : value) (regs : list (value * Structure))
  : option Structure :=
  fold_left (fun found r => if same_key (fst r) k then Some (snd r) else found)
            regs None.

(** A small structures directory: two classes named [Card], a file that is
    not a schema, and an enum under the built-in name [Color]. *)
Definition sampleStructureFiles : list (string * value) :=
  [ ("Card.xml",
     JObj [("Class", JObj [("Name", JStr "Card");
                           ("Property", JObj [("Name", JStr "Title");
                                              ("Type", JStr "String")])])]);
    ("notes.txt", JStr "");
    ("Card2.xml",
     JObj [("Class", JObj [("Name", JStr "Card");
                           ("Property", JObj [("Name", JStr "Power");
                                              ("Type", JStr "Number")])])]);
    ("Color.xml",
     JObj [("Enum", JObj [("Name", JStr "Color");
                          ("Item", JArr [JObj [("Name", JStr "Red");
                                               ("Value", JNum (Int 0))];
                                         JObj [("Name", JStr "Blue");
                                               ("Value", JNum (Int 1))]])])]) ].

(** The registry loaded from it. *)
Definition sampleRegistry : NoesisStructureMap :=
  match snd (readStructures sampleStructureFiles "data" false) with
  | Done registry => registry
  | _ => []
  end.

(** A property without the bounds recorded for it at load time. *)
Definition eraseBounds (p : NoesisProperty) : NoesisProperty :=
  match p with
  | PString _ _ => PString JUndef JUndef
  | PNumber _ _ _ => PNumber JUndef JUndef JUndef
  | _ => p
  end.

Definition eraseStructure (s : Structure) : Structure :=
  match s with
  | Class c =>
      Class {| class_name := class_name c;
               properties := map (fun p => (fst p, eraseBounds (snd p)))
                                 (properties c) |}
  | _ => s
  end.

Definition eraseRegistry (m : NoesisStructureMap) : NoesisStructureMap :=
  map (fun s => (fst s, eraseStructure (snd s))) m.

(** Two registries that are identical except for the word-count bounds of
    their String properties and the range and decimal count of their Number
    properties. *)
Definition sameButBounds (r1 r2 : NoesisStructureMap) : Prop :=
  eraseRegistry r1 = eraseRegistry r2.

(** The schema attributes that hold those bounds. *)
Definition isBoundsAttribute (k : string) : bool :=
  String.eqb k "StringMinWordCount" || String.eqb k "StringMaxWordCount"
  || String.eqb k "NumberMinValue" || String.eqb k "NumberMaxValue"
  || String.eqb k "NumberDecimalCount".

(** The classification of a declaration, bounds aside. *)
Definition classifiedUpToBounds (d : value) : outcome NoesisProperty :=
  match snd (processProperty d) with
  | Done p => Done (eraseBounds p)
  | Thrown e => Thrown e
  | Exhausted => Exhausted
  end.

(** Two registries with the same class, its bounds apart. *)
Definition boundedDeck : NoesisStructureMap :=
  map_set (JStr "Deck")
    (Class {| class_name := JStr "Deck";
              properties := [(JStr "Label", PString (JNum (Int 1)) (JNum (Int 3)));
                             (JStr "Size", PNumber (JNum (Int 0)) (JNum (Int 60))
                                             (JNum (Int 0)))] |})
    builtIns.

Definition unboundedDeck : NoesisStructureMap :=
  map_set (JStr "Deck")
    (Class {| class_name := JStr "Deck";
              properties := [(JStr "Label", PString JUndef JUndef);
                             (JStr "Size", PNumber JUndef JUndef JUndef)] |})
    builtIns.

(** The specification's example: the schema of a class [Card] with a
    String property [Title] and a Number property [Power], and the data
    [<Card Title="Ace" Power="3"/>] as the parser returns it when reading
    data sets (every field wrapped in an array, numbers converted). *)
Definition cardSchema : value :=
  JObj [("Class",
         JObj [("Name", JStr "Card");
               ("Property",
                JArr [JObj [("Name", JStr "Title"); ("Type", JStr "String")];
                      JObj [("Name", JStr "Power"); ("Type", JStr "Number")]])])].

(** The registry loaded from that schema: the built-ins and [Card]. *)
Definition cardRegistry : NoesisStructureMap :=
  map_set (JStr "Card")
    (Class {| class_name := JStr "Card";
              properties := [(JStr "Title", PString JUndef JUndef);
                             (JStr "Power", PNumber JUndef JUndef JUndef)] |})
    builtIns.

Definition aceData : value :=
  JObj [("Card", JObj [("Title", JArr [JStr "Ace"]);
                       ("Power", JArr [JNum (Int 3)])])].

(* ------------------------------------------------------------------ *)
(** ** Vocabulary for the further properties *)
(* ------------------------------------------------------------------ *)

(** Every effect of a run satisfies [P]. *)
Definition traceAll {A} (P : entry -> Prop) (m : M A) : Prop :=
  Forall P (fst m).

Definition isConsole (e : entry) : Prop :=
  match e with
  | Console _ _ _ => True
  | Written _ _ => False
  end.

(** Anything but a [console.error] line. *)
Definition notError (e : entry) : Prop :=
  match e with
  | Console LError _ _ => False
  | _ => True
  end.


(** The member that an [Item] declaration of an enum source stands for:
    its [Name] and [Number(Value)]. *)
Definition declaredItem (d : value) : value * number :=
  (declaredName d,
   to_number (match get d "Value" with
              | Done v => v
              | _ => JUndef
              end)).

(** The keys of a list are pairwise different map keys. *)
Fixpoint distinctKeys (keys : list value) : Prop :=
  match keys with
  | [] => True
  | k :: rest => Forall (fun k' => same_key k k' = false) rest
                 /\ distinctKeys rest
  end.

(** Every entry of a registry is stored under the name of its structure. *)
Definition selfNamed (m : NoesisStructureMap) : Prop :=
  Forall (fun e => fst e = name (snd e)) m.

(** Every built-in marker of a registry carries one of the built-in names. *)
Definition builtInsKnown (m : NoesisStructureMap) : Prop :=
  Forall (fun e => match snd e with
                   | BuiltIn b => In (builtin_name b) NoesisBuiltInSubTypes
                   | _ => True
                   end) m.

(** The kind that carries a sub-type, for the [Type] values that have
    one. *)
Definition subTypedKind (type : string) (subType : value) : NoesisProperty :=
  if String.eqb type "Object" then PObject subType
  else if String.eqb type "Enum" then PEnum subType
  else PCollection subType.

(** Anything but the "unknown built-in" error line. *)
Definition notUnknownBuiltIn (e : entry) : Prop :=
  forall name inspected,
    e <> Console LError ("Unknown built-in: " ++ name) inspected.

(** Whether a directory entry is read as a schema file. *)
Definition isSchemaFile (entry : string * value) : bool :=
  ends_with ".xml" (fst entry).

(** The declaration of a class with the given fields and their types. *)
Definition classDeclaration (indent : string) (className : value)
    (fields : list (value * string)) : string :=
  "// Definition for structure " ++ to_string className ++ newline
  ++ "export type " ++ to_string className ++ " = {" ++ newline
  ++ concat_strings
       (map (fun f => indent ++ to_string (fst f) ++ ": " ++ snd f ++ ";"
                      ++ newline) fields)
  ++ "}" ++ newline ++ newline.

(** The declaration that the types file holds for a class or an enum. *)
Definition declarationOf (indent : string) (s : Structure) : string :=
  match s with
  | Class c =>
      classDeclaration indent (class_name c)
        (map (fun p => (fst p, propertyType (snd p))) (properties c))
  | Enum e => enumDeclaration indent (enum_name e) (map fst (items e))
  | BuiltIn _ => ""
  end.

Definition isDeclared (entry : value * Structure) : bool :=
  match snd entry with
  | BuiltIn _ => false
  | _ => true
  end.

Definition quoteChar : ascii := ascii_of_nat 34.
Definition backslash : ascii := ascii_of_nat 92.

(** The inverse of the escaping: a backslash directly before a double
    quote is dropped. *)
Fixpoint unescapeQuotes (s : string) : string :=
  match s with
  | EmptyString => EmptyString
  | String a rest =>
      match rest with
      | String b rest' =>
          if Ascii.eqb a backslash && Ascii.eqb b quoteChar
          then String b (unescapeQuotes rest')
          else String a (unescapeQuotes rest)
      | EmptyString => String a EmptyString
      end
  end.

(** A structure without what the loader records and nothing reads: the
    [imageSourcePath] of Image properties and the ordinals of enum items. *)
Definition eraseUnused (s : Structure) : Structure :=
  match s with
  | Class c =>
      Class {| class_name := class_name c;
               properties :=
                 map (fun p => (fst p,
                                match snd p with
                                | PImage _ => PImage JUndef
                                | q => q
                                end))
                     (properties c) |}
  | Enum e =>
      Enum {| enum_name := enum_name e;
              items := map (fun i => (fst i, NaN)) (items e) |}
  | BuiltIn _ => s
  end.

Definition eraseUnusedRegistry (m : NoesisStructureMap) : NoesisStructureMap :=
  map (fun s => (fst s, eraseUnused (snd s))) m.

(** The sub-type names that the data-side alias table renames. *)
Definition isAliased (s : string) : bool :=
  String.eqb s "Bool" || String.eqb s "ImageSource" || String.eqb s "Brush"
  || String.eqb s "BaseCommand".

(** Two registries with the same enum and class, apart from the ordinals
    of the enum and the source path of the image. *)
Definition annotatedRegistry : NoesisStructureMap :=
  [(JStr "Suit", Enum {| enum_name := JStr "Suit";
                         items := [(JStr "Hearts", Int 10);
                                   (JStr "Spades", Int 20)] |});
   (JStr "Card", Class {| class_name := JStr "Card";
                          properties := [(JStr "Art",
                                          PImage (JStr "Assets/Art"))] |})].

Definition plainRegistry : NoesisStructureMap :=
  [(JStr "Suit", Enum {| enum_name := JStr "Suit";
                         items := [(JStr "Hearts", Int 0);
                                   (JStr "Spades", Int 1)] |});
   (JStr "Card", Class {| class_name := JStr "Card";
                          properties := [(JStr "Art", PImage JUndef)] |})].

(* ================================================================== *)
(** * Basic facts *)
(* ================================================================== *)

Section MonadFacts.

Lemma bind_ret_l {A B} (a : A) (f : A -> M B) : bind (ret a) f = f a.
Proof. unfold bind, ret. destruct (f a) as [l r]. reflexivity. Qed.

Lemma bind_lift_done {A B} (a : A) (f : A -> M B) : bind (lift (Done a)) f = f a.
Proof. apply bind_ret_l. Qed.

Lemma bind_lift_thrown {A B} (e : exn) (f : A -> M B) :
  bind (lift (Thrown e)) f = ([], Thrown e).
Proof. reflexivity. Qed.

Lemma bind_assoc {A B C} (m : M A) (f : A -> M B) (g : B -> M C) :
  bind (bind m f) g = bind m (fun a => bind (f a) g).
Proof.
  destruct m as [l [a | e |]]; simpl; try reflexivity.
  destruct (f a) as [l1 [b | e |]]; simpl; try reflexivity.
  destruct (g b) as [l2 r]. now rewrite app_assoc.
Qed.

Lemma bind_ext {A B} (m : M A) (f g : A -> M B) :
  (forall a, f a = g a) -> bind m f = bind m g.
Proof.
  intros E. destruct m as [l [a | e |]]; simpl; try reflexivity. now rewrite E.
Qed.

(** What a successful [bind] is made of. *)
Lemma bind_inv_done {A B} (m : M A) (f : A -> M B) l b :
  bind m f = (l, Done b) ->
  exists l1 a l2, m = (l1, Done a) /\ f a = (l2, Done b) /\ l = (l1 ++ l2)%list.
Proof.
  destruct m as [l1 [a | e |]]; simpl; try discriminate.
  destruct (f a) as [l2 r] eqn:E. intros [= <- ->].
  now exists l1, a, l2.
Qed.

Lemma foldM_ext {A B} (f g : A -> B -> M A) l :
  (forall acc x, In x l -> f acc x = g acc x) ->
  forall acc, foldM f acc l = foldM g acc l.
Proof.
  induction l as [| x l IH]; intros E acc; simpl; [reflexivity |].
  rewrite E by now left.
  apply bind_ext. intros a. apply IH. intros; apply E; now right.
Qed.

End MonadFacts.

(** ** Strings *)

Lemma append_nil_r (s : string) : s ++ "" = s.
Proof. induction s; simpl; congruence. Qed.

Lemma append_assoc (a b c : string) : (a ++ b) ++ c = a ++ b ++ c.
Proof. induction a; simpl; congruence. Qed.

Lemma contains_app c a b : contains c (a ++ b) = contains c a || contains c b.
Proof. induction a; simpl; [reflexivity |]. now rewrite IHa, orb_assoc. Qed.

Lemma concat_strings_app l1 l2 :
  concat_strings (l1 ++ l2) = concat_strings l1 ++ concat_strings l2.
Proof.
  induction l1 as [| s l1 IH]; simpl; [reflexivity |].
  now rewrite IH, append_assoc.
Qed.


Lemma digit_of_dot c : Ascii.eqb c "." = true -> digit_of c = None.
Proof. intros E. apply Ascii.eqb_eq in E. now subst. Qed.

Lemma parse_digits_no_dot s : forall acc n,
  parse_digits s acc = Some n -> contains "." s = false.
Proof.
  induction s as [| c s IH]; intros acc n; simpl; [reflexivity |].
  destruct (Ascii.eqb c ".") eqn:E.
  - now rewrite (digit_of_dot c E).
  - destruct (digit_of c); [| discriminate]. simpl. apply IH.
Qed.

Lemma index_of_key_no_dot k i : index_of_key k = Some i -> contains "." k = false.
Proof.
  unfold index_of_key, parse_unsigned. destruct k as [| c k]; [discriminate |].
  destruct (parse_digits (String c k) 0) eqn:E; [| discriminate].
  intros _. eapply parse_digits_no_dot; eauto.
Qed.

Lemma dotted_not_length k : contains "." k = true -> String.eqb k "length" = false.
Proof.
  intros H. destruct (String.eqb k "length") eqn:E; [| reflexivity].
  apply String.eqb_eq in E. now subst.
Qed.

Lemma dotted_not_index k : contains "." k = true -> index_of_key k = None.
Proof.
  intros H. destruct (index_of_key k) eqn:E; [| reflexivity].
  apply index_of_key_no_dot in E. congruence.
Qed.

Lemma dotted_key a b : contains "." (a ++ "." ++ b) = true.
Proof. rewrite contains_app. simpl. apply orb_true_r. Qed.

(** ** Depth of what member access returns *)

Lemma depth_lookup_field k fs : depth (lookup_field k fs) < depth (JObj fs).
Proof.
  induction fs as [| [k' v] fs IH]; simpl in *; [lia |].
  destruct (String.eqb k' k); simpl; lia.
Qed.

Lemma depth_element x items : In x items -> depth x < depth (JArr items).
Proof.
  induction items as [| y items IH]; simpl; [tauto |].
  intros [-> | H]; [lia |]. specialize (IH H). simpl in IH. lia.
Qed.

Lemma depth_nth i items : depth (nth i items JUndef) < depth (JArr items).
Proof.
  destruct (nth_in_or_default i items JUndef) as [H | ->].
  - now apply depth_element.
  - simpl. lia.
Qed.

Lemma depth_get v k w : get v k = Done w -> depth w <= depth v.
Proof.
  destruct v as [| | b | n | s | elems | fs]; simpl; try discriminate.
  - intros [= <-]. simpl. lia.
  - intros [= <-]. simpl. lia.
  - destruct (String.eqb k "length"); [intros [= <-]; simpl; lia |].
    destruct (index_of_key k) as [i |]; intros [= <-]; simpl; [| lia].
    unfold char_at. destruct (String.get i s); simpl; lia.
  - destruct (String.eqb k "length"); [intros [= <-]; simpl; lia |].
    destruct (index_of_key k) as [i |]; intros [= <-]; [| simpl; lia].
    apply Nat.lt_le_incl, (depth_nth i elems).
  - intros [= <-]. apply Nat.lt_le_incl, (depth_lookup_field k fs).
Qed.

Lemma depth_get0 v w : get0 v = Done w -> depth w <= depth v.
Proof. apply depth_get. Qed.

(** A key that contains a dot is neither an index nor [length]: on anything
    but an object it reads [undefined]. *)
Lemma depth_get_dotted v k w :
  contains "." k = true -> get v k = Done w -> truthy w = true ->
  depth w < depth v.
Proof.
  intros Hk. destruct v; simpl; try discriminate.
  - intros [= <-]. discriminate.
  - intros [= <-]. discriminate.
  - rewrite (dotted_not_length k Hk), (dotted_not_index k Hk).
    intros [= <-]. discriminate.
  - rewrite (dotted_not_length k Hk), (dotted_not_index k Hk).
    intros [= <-]. discriminate.
  - intros [= <-] _. apply depth_lookup_field.
Qed.

Lemma get_not_exhausted v k : get v k <> Exhausted.
Proof.
  destruct v; simpl; try discriminate.
  - destruct (String.eqb k "length"); [discriminate |].
    destruct (index_of_key k); discriminate.
  - destruct (String.eqb k "length"); [discriminate |].
    destruct (index_of_key k); discriminate.
Qed.

(** ** The recursion of [processDataStructure] *)

Ltac step_get :=
  match goal with
  | |- context [bind (lift (get ?v ?k)) _] =>
      let E := fresh "E" in
      destruct (get v k) as [? | ? |] eqn:E;
      [ rewrite !bind_lift_done | reflexivity | reflexivity ]
  | |- context [bind (lift (get0 ?v)) _] =>
      let E := fresh "E" in
      destruct (get0 v) as [? | ? |] eqn:E;
      [ rewrite !bind_lift_done | reflexivity | reflexivity ]
  end.

Section Locality.

Variables r1 r2 : string -> value -> value -> nat -> M string.
Variable data : value.
Hypothesis agree :
  forall i t d l, depth d < depth data -> r1 i t d l = r2 i t d l.

Lemma processArray_local indent itemType elements indentLevel :
  (forall x, In x elements -> depth x < depth data) ->
  processArray r1 indent itemType elements indentLevel
  = processArray r2 indent itemType elements indentLevel.
Proof.
  intros H. unfold processArray. apply foldM_ext.
  intros acc x Hx. rewrite agree by auto. reflexivity.
Qed.

Lemma propertyValue_local structureName subIndent indentLevel propName property :
  propertyValue r1 structureName subIndent data indentLevel propName property
  = propertyValue r2 structureName subIndent data indentLevel propName property.
Proof.
  unfold propertyValue.
  step_get. rename a into propValue.
  step_get. rename a into objectPropValue.
  assert (D : truthy objectPropValue = true -> depth objectPropValue < depth data).
  { intros T. eapply depth_get_dotted; eauto using dotted_key. }
  destruct property; try reflexivity.
  - destruct (truthy objectPropValue); [| reflexivity].
    specialize (D eq_refl).
    do 3 step_get.
    apply agree.
    apply depth_get0 in E1, E3. apply depth_get in E2. lia.
  - destruct (truthy objectPropValue); [| reflexivity].
    specialize (D eq_refl).
    do 2 step_get.
    destruct a0; try reflexivity.
    rewrite processArray_local; [reflexivity |].
    intros x Hx. apply depth_element in Hx.
    apply depth_get0 in E1. apply depth_get in E2. lia.
Qed.

Lemma processDataStructureBody_local structures indent structureType indentLevel :
  processDataStructureBody r1 structures indent structureType data indentLevel
  = processDataStructureBody r2 structures indent structureType data indentLevel.
Proof.
  unfold processDataStructureBody.
  apply bind_ext. intros parts.
  destruct (map_get (last_piece parts) structures) as [[c | e | b] |];
    try reflexivity.
  unfold classLiteral. f_equal. apply foldM_ext.
  intros acc p _. now rewrite propertyValue_local.
Qed.

End Locality.

Lemma processDataStructure_rec_stable structures n :
  forall data, depth data < n ->
  forall f1 f2 indent structureType indentLevel,
    depth data < f1 -> depth data < f2 ->
    processDataStructure_rec f1 structures indent structureType data indentLevel
    = processDataStructure_rec f2 structures indent structureType data indentLevel.
Proof.
  induction n as [| n IH]; intros data Hn f1 f2 indent ty lvl H1 H2; [lia |].
  destruct f1 as [| f1]; [lia |]. destruct f2 as [| f2]; [lia |].
  simpl. apply processDataStructureBody_local.
  intros i t d l Hd. apply IH; lia.
Qed.

(** The defining equation of [processDataStructure]: the recursion bound
    is invisible. *)
Lemma processDataStructure_eq structures indent structureType data indentLevel :
  processDataStructure structures indent structureType data indentLevel
  = processDataStructureBody (processDataStructure structures) structures
      indent structureType data indentLevel.
Proof.
  unfold processDataStructure at 1. simpl.
  apply processDataStructureBody_local.
  intros i t d l Hd. unfold processDataStructure.
  apply (processDataStructure_rec_stable structures (S (depth d))); lia.
Qed.

Lemma processDataStructure_rec_enough structures fuel indent structureType data
    indentLevel :
  depth data < fuel ->
  processDataStructure_rec fuel structures indent structureType data indentLevel
  = processDataStructure structures indent structureType data indentLevel.
Proof.
  intros H. unfold processDataStructure.
  apply (processDataStructure_rec_stable structures (S (depth data))); lia.
Qed.

(** ** [processDataStructure] always returns or throws *)

Lemma terminates_ret {A} (a : A) : terminates (ret a).
Proof. discriminate. Qed.

Lemma terminates_throw {A} e : terminates (@throw A e).
Proof. discriminate. Qed.

Lemma terminates_console l t : terminates (console l t).
Proof. discriminate. Qed.

Lemma terminates_console_inspect l t v : terminates (console_inspect l t v).
Proof. discriminate. Qed.

Lemma terminates_get v k : terminates (lift (get v k)).
Proof. apply get_not_exhausted. Qed.

Lemma terminates_get0 v : terminates (lift (get0 v)).
Proof. apply get_not_exhausted. Qed.

Lemma terminates_bind {A B} (m : M A) (f : A -> M B) :
  terminates m -> (forall a, terminates (f a)) -> terminates (bind m f).
Proof.
  unfold terminates. destruct m as [l [a | e |]]; simpl; intros Hm Hf.
  - specialize (Hf a). destruct (f a). exact Hf.
  - discriminate.
  - congruence.
Qed.

Lemma terminates_foldM {A B} (f : A -> B -> M A) l :
  (forall acc x, In x l -> terminates (f acc x)) ->
  forall acc, terminates (foldM f acc l).
Proof.
  induction l as [| x l IH]; intros H acc; simpl.
  - apply terminates_ret.
  - apply terminates_bind; [apply H; now left |].
    intros a. apply IH. intros; apply H; now right.
Qed.

Lemma terminates_escapeString v : terminates (escapeString v).
Proof. destruct v; discriminate. Qed.

Lemma terminates_imagePathOf v : terminates (imagePathOf v).
Proof. destruct v; discriminate. Qed.

Lemma terminates_processCommand i c l : terminates (processCommand i c l).
Proof.
  unfold processCommand. apply terminates_bind; [apply terminates_get |].
  intros; apply terminates_ret.
Qed.

Lemma terminates_split v c : terminates (lift (split v c)).
Proof. destruct v; discriminate. Qed.

Ltac terminates_step :=
  first
    [ apply terminates_ret
    | apply terminates_throw
    | apply terminates_console
    | apply terminates_console_inspect
    | apply terminates_get
    | apply terminates_get0
    | apply terminates_escapeString
    | apply terminates_imagePathOf
    | apply terminates_processCommand
    | apply terminates_split
    | apply terminates_bind; [| intros ? ] ].

Ltac terminates_auto :=
  repeat first
    [ terminates_step
    | match goal with
      | |- terminates (if ?b then _ else _) => destruct b
      | |- terminates (match nonempty ?x with _ => _ end) =>
          destruct (nonempty x)
      end ].

Section Termination.

Variable r : string -> value -> value -> nat -> M string.
Variable data : value.
Hypothesis smaller :
  forall i t d l, depth d < depth data -> terminates (r i t d l).

Lemma terminates_propertyValue structureName subIndent indentLevel propName
    property :
  terminates (propertyValue r structureName subIndent data indentLevel
                propName property).
Proof.
  unfold propertyValue.
  apply terminates_bind; [apply terminates_get | intros propValue].
  destruct (get data (to_string structureName ++ "." ++ to_string propName))
    as [objectPropValue | e |] eqn:E;
    [rewrite bind_lift_done | discriminate | now apply get_not_exhausted in E].
  assert (D : truthy objectPropValue = true -> depth objectPropValue < depth data).
  { intros T. eapply depth_get_dotted; eauto using dotted_key. }
  destruct property as [| | | | smin smax | nmin nmax ndec | subType | isp
                        | subType | subType];
    try (destruct (truthy propValue); repeat terminates_step; fail);
    try (destruct (truthy objectPropValue); repeat terminates_step; fail).
  - (* Command *)
    destruct (truthy objectPropValue); [| terminates_step].
    terminates_auto.
  - (* Object *)
    destruct (truthy objectPropValue); [| terminates_step].
    specialize (D eq_refl).
    destruct (get0 objectPropValue) as [w | e |] eqn:E1;
      [rewrite bind_lift_done | discriminate | now apply get_not_exhausted in E1].
    destruct (get w (to_string subType)) as [n | e |] eqn:E2;
      [rewrite bind_lift_done | discriminate | now apply get_not_exhausted in E2].
    destruct (get0 n) as [d | e |] eqn:E3;
      [rewrite bind_lift_done | discriminate | now apply get_not_exhausted in E3].
    apply smaller.
    apply depth_get0 in E1, E3. apply depth_get in E2. lia.
  - (* Image *)
    destruct (truthy propValue); [| terminates_step].
    terminates_auto.
  - (* Collection *)
    destruct (truthy objectPropValue); [| terminates_step].
    specialize (D eq_refl).
    destruct (get0 objectPropValue) as [w | e |] eqn:E1;
      [rewrite bind_lift_done | discriminate | now apply get_not_exhausted in E1].
    destruct (get w (to_string (noesisSubtypeToNoesisTypeConverter subType)))
      as [n | e |] eqn:E2;
      [rewrite bind_lift_done | discriminate | now apply get_not_exhausted in E2].
    destruct n as [| | b | z | s | elements | fs]; repeat terminates_step.
    unfold processArray. apply terminates_foldM. intros acc x Hx.
    apply terminates_bind; [| intros; apply terminates_ret].
    apply smaller. apply depth_element in Hx.
    apply depth_get0 in E1. apply depth_get in E2. lia.
Qed.

Lemma terminates_builtInLiteral structureName indent indentLevel structure :
  terminates (builtInLiteral structureName indent data indentLevel structure).
Proof.
  unfold builtInLiteral.
  terminates_auto.
Qed.

Lemma terminates_body structures indent structureType indentLevel :
  terminates (processDataStructureBody r structures indent structureType
                data indentLevel).
Proof.
  unfold processDataStructureBody.
  apply terminates_bind; [apply terminates_split | intros parts].
  destruct (map_get (last_piece parts) structures) as [[c | e | b] |].
  - unfold classLiteral. apply terminates_bind; [| intros; apply terminates_ret].
    apply terminates_foldM. intros acc p _.
    apply terminates_bind; [apply terminates_propertyValue |].
    intros; apply terminates_ret.
  - apply terminates_ret.
  - apply terminates_builtInLiteral.
  - repeat terminates_step.
Qed.

End Termination.

(** [Exhausted] is never the result of [processDataStructure]: on every
    registry and every data tree it returns a text or throws. *)
Lemma processDataStructure_terminates structures :
  forall n data, depth data < n ->
  forall indent structureType indentLevel,
    terminates (processDataStructure structures indent structureType data
                  indentLevel).
Proof.
  induction n as [| n IH]; intros data Hn indent ty lvl; [lia |].
  rewrite processDataStructure_eq. apply terminates_body.
  intros i t d l Hd. apply IH. lia.
Qed.

Lemma processDataStructure_total structures indent structureType data indentLevel :
  exists trace,
    (exists text,
       processDataStructure structures indent structureType data indentLevel
       = (trace, Done text))
    \/ (exists e,
       processDataStructure structures indent structureType data indentLevel
       = (trace, Thrown e)).
Proof.
  pose proof (processDataStructure_terminates structures (S (depth data)) data
                (Nat.lt_succ_diag_r _) indent structureType indentLevel) as T.
  unfold terminates in T.
  destruct (processDataStructure structures indent structureType data indentLevel)
    as [trace [text | e |]]; exists trace.
  - left. now exists text.
  - right. now exists e.
  - now contradiction T.
Qed.

(* ================================================================== *)
(** * Property classification *)
(* ================================================================== *)

Lemma last_piece_snoc l s : last_piece (l ++ [s]) = JStr s.
Proof. unfold last_piece. now rewrite rev_unit. Qed.

(** The pieces of a split: none contains the separator, and putting the
    separator back after each piece but the last gives the string. *)
Lemma split_on_pieces c s :
  exists pieces final,
    split_on c s = (pieces ++ [final])%list
    /\ contains c final = false
    /\ s = concat_strings (map (fun p => p ++ String c "") pieces) ++ final.
Proof.
  induction s as [| a s (pieces & final & E & Hc & Hs)]; simpl.
  - now exists [], "".
  - destruct (Ascii.eqb a c) eqn:Eac.
    + apply Ascii.eqb_eq in Eac. subst a.
      exists ("" :: pieces)%list, final. rewrite E. simpl. now rewrite <- Hs.
    + rewrite E. destruct pieces as [| p pieces]; simpl in *.
      * exists [], (String a final). simpl. rewrite Eac, Hc. now subst.
      * exists (String a p :: pieces)%list, final. simpl. now rewrite Hs.
Qed.

Lemma split_on_final c s :
  exists final,
    last_piece (split_on c s) = JStr final
    /\ contains c final = false
    /\ (s = final \/ exists before, s = before ++ String c final).
Proof.
  destruct (split_on_pieces c s) as (pieces & final & E & Hc & Hs).
  exists final. rewrite E, last_piece_snoc. repeat split; [assumption |].
  destruct pieces as [| p pieces _] using rev_ind; [now left |].
  right. rewrite map_app, concat_strings_app in Hs. simpl in Hs.
  exists (concat_strings (map (fun q => q ++ String c "") pieces) ++ p).
  rewrite Hs, append_nil_r, !append_assoc. reflexivity.
Qed.

(** C9. Classification looks at [SubType] before settling on kind [Object]:
    with [Type="Object"], the sub-types [Brush], [ImageSource] and
    [FontFamily] give the kinds Brush, Image and Font; every other (non-empty)
    sub-type gives kind Object carrying the final dot-separated segment of
    the sub-type and nothing else. *)
Theorem processProperty_object_subtypes :
  forall property subType,
    get property "Type" = Done (JStr "Object") ->
    get property "SubType" = Done (JStr subType) ->
    subType <> "" ->
    (subType = "Brush" -> processProperty property = ret PBrush)
    /\ (subType = "ImageSource" ->
        exists path, get property "ImageSourcePath" = Done path
                     /\ processProperty property = ret (PImage path))
    /\ (subType = "FontFamily" -> processProperty property = ret PFont)
    /\ (subType <> "Brush" -> subType <> "ImageSource" ->
        subType <> "FontFamily" ->
        exists segment,
          processProperty property = ret (PObject (JStr segment))
          /\ finalSegmentOf subType segment).
Proof.
  intros property subType HT HS Hne.
  assert (Tr : truthy (JStr subType) = true).
  { simpl. destruct (String.eqb subType "") eqn:E; [| reflexivity].
    apply String.eqb_eq in E. contradiction. }
  assert (E : processProperty property
              = if String.eqb subType "Brush" then ret PBrush
                else if String.eqb subType "ImageSource" then
                  imageSourcePath <- lift (get property "ImageSourcePath") ;;
                  ret (PImage imageSourcePath)
                else if String.eqb subType "FontFamily" then ret PFont
                else ret (PObject (last_piece (split_on "." subType)))).
  { unfold processProperty. rewrite HS, bind_lift_done, Tr. simpl split.
    rewrite bind_lift_done. rewrite HT. rewrite bind_lift_done. reflexivity. }
  rewrite E. clear E. repeat split.
  - intros ->. reflexivity.
  - intros ->.
    destruct (get property "ImageSourcePath") as [path | e |] eqn:E.
    + exists path. split; reflexivity.
    + destruct property; simpl in *; discriminate.
    + now apply get_not_exhausted in E.
  - intros ->. reflexivity.
  - intros N1 N2 N3.
    apply String.eqb_neq in N1, N2, N3. rewrite N1, N2, N3.
    destruct (split_on_final "." subType) as (segment & E & Hc & Hs).
    exists segment. rewrite E. repeat split; assumption.
Qed.

Lemma processProperty_object_subtypes_witness :
  exists segment,
    processProperty
      (JObj [("Name", JStr "Target"); ("Type", JStr "Object");
             ("SubType", JStr "Game.Ui.Card")])
    = ret (PObject (JStr segment))
    /\ finalSegmentOf "Game.Ui.Card" segment.
Proof.
  apply (processProperty_object_subtypes
           (JObj [("Name", JStr "Target"); ("Type", JStr "Object");
                  ("SubType", JStr "Game.Ui.Card")])
           "Game.Ui.Card");
    try reflexivity; discriminate.
Defined.

(* ================================================================== *)
(** * Enumerations *)
(* ================================================================== *)

Lemma verbose_done isVerbose t :
  verbose isVerbose t
  = ((if isVerbose then [Console LLog t None] else []), Done tt).
Proof. now destruct isVerbose. Qed.

Lemma foldM_verbose {B} isVerbose (g : B -> string) l :
  foldM (fun (_ : unit) x => verbose isVerbose (g x)) tt l
  = ((if isVerbose then map (fun x => Console LLog (g x) None) l else []),
     Done tt).
Proof.
  induction l as [| x l IH]; simpl.
  - now destruct isVerbose.
  - rewrite verbose_done. simpl. rewrite IH. now destruct isVerbose.
Qed.

(** The effects of [outputTypes]: the progress lines when verbose, then the
    one file. *)
Lemma outputTypes_trace structures scriptsPath isVerbose indentLevel :
  outputTypes structures scriptsPath isVerbose indentLevel
  = (((if isVerbose
       then Console LLog
              ("Writing TypeScript definitions for "
               ++ string_of_nat (List.length structures)
               ++ " Noesis structures to " ++ scriptsPath ++ "/NoesisTypes.ts")
              None
            :: map (fun s => Console LLog ("- " ++ to_string (name (snd s))) None)
                 structures
       else [])
      ++ [Written (scriptsPath ++ "/NoesisTypes.ts")
            (typesText structures indentLevel)])%list,
     Done tt).
Proof.
  unfold outputTypes. rewrite verbose_done.
  rewrite (foldM_verbose isVerbose
             (fun s : value * Structure => "- " ++ to_string (name (snd s)))).
  destruct isVerbose; reflexivity.
Qed.

Lemma typesText_contains structures indentLevel key structure :
  In (key, structure) structures ->
  exists before after,
    typesText structures indentLevel
    = before ++ outputStructure (spaces indentLevel) structure ++ after.
Proof.
  intros H. apply in_split in H. destruct H as (l1 & l2 & ->).
  unfold typesText. rewrite map_app, concat_strings_app.
  cbn [map concat_strings snd].
  exists (typesPreamble
          ++ concat_strings
               (map (fun s => outputStructure (spaces indentLevel) (snd s)) l1)),
    (concat_strings
       (map (fun s => outputStructure (spaces indentLevel) (snd s)) l2)).
  now rewrite !append_assoc.
Qed.

Lemma outputStructure_enum indent e :
  outputStructure indent (Enum e)
  = enumDeclaration indent (enum_name e) (map fst (items e)).
Proof.
  unfold outputStructure, enumDeclaration. now rewrite map_map.
Qed.

(** C7. Every registered enum is declared in the emitted file with exactly
    one member per item, in the order of the items; a member's value is its
    own name as a string literal, so the declaration is a function of the
    names alone and the ordinals do not appear in it. *)
Theorem enum_members_are_their_names :
  forall structures scriptsPath isVerbose indentLevel key e,
    In (key, Enum e) structures ->
    (exists before after,
       In (Written (scriptsPath ++ "/NoesisTypes.ts")
             (before
              ++ enumDeclaration (spaces indentLevel) (enum_name e)
                   (map fst (items e))
              ++ after))
          (fst (outputTypes structures scriptsPath isVerbose indentLevel)))
    /\ List.length (map (enumMember (spaces indentLevel)) (map fst (items e)))
       = List.length (items e)
    /\ (forall e',
          enum_name e' = enum_name e ->
          map fst (items e') = map fst (items e) ->
          outputStructure (spaces indentLevel) (Enum e')
          = outputStructure (spaces indentLevel) (Enum e)).
Proof.
  intros structures scriptsPath isVerbose indentLevel key e H. repeat split.
  - destruct (typesText_contains structures indentLevel _ _ H)
      as (before & after & E).
    exists before, after. rewrite outputTypes_trace. simpl fst.
    apply in_or_app. right. left.
    now rewrite <- outputStructure_enum, <- E.
  - now rewrite !length_map.
  - intros e' Hn Hi. rewrite !outputStructure_enum. now rewrite Hn, Hi.
Qed.

Lemma enum_members_are_their_names_witness :
  exists before after,
    In (Written "out/NoesisTypes.ts"
          (before
           ++ enumDeclaration (spaces 2) (JStr "Orientation")
                [JStr "Horizontal"; JStr "Vertical"]
           ++ after))
       (fst (outputTypes (addBuiltInEnums (addBuiltInTypes [])) "out" false 2)).
Proof.
  refine (proj1 (enum_members_are_their_names
                   (addBuiltInEnums (addBuiltInTypes [])) "out" false 2
                   (JStr "Orientation")
                   (builtInEnum "Orientation" ["Horizontal"; "Vertical"])
                   _)).
  do 8 right. left. reflexivity.
Defined.

(** The built-in enums carry exactly their canonical member lists. *)
Lemma builtin_enum_members :
  Forall (fun e => map fst (items (builtInEnum (fst e) (snd e)))
                   = map JStr (snd e))
         NoesisBuiltInEnums.
Proof. repeat constructor. Qed.

(** ** Loading an enum *)

Lemma processEnumStructure_single enumName itemFields :
  processEnumStructure
    (JObj [("Enum", JObj [("Name", enumName); ("Item", JObj itemFields)])])
  = ([], Thrown TypeError).
Proof. reflexivity. Qed.

(** With a list of [Item] children the enum is built, its members in
    declaration order. *)
Lemma processEnumStructure_list data enum enumName decls :
  get data "Enum" = Done enum ->
  get enum "Name" = Done enumName ->
  get enum "Item" = Done (JArr decls) ->
  Forall isElement decls ->
  processEnumStructure data
  = ret {| enum_name := enumName;
           items := fold_left
                      (fun m d =>
                         match get d "Name", get d "Value" with
                         | Done n, Done v => map_set n (to_number v) m
                         | _, _ => m
                         end)
                      decls [] |}.
Proof.
  intros HE HN HI HD. unfold processEnumStructure.
  rewrite HE, bind_lift_done, HN, bind_lift_done, HI, bind_lift_done.
  assert (F : forall acc,
             foldM (fun members item =>
                      itemName <- lift (get item "Name") ;;
                      itemValue <- lift (get item "Value") ;;
                      ret (map_set itemName (to_number itemValue) members))
                   acc decls
             = ret (fold_left
                      (fun m d =>
                         match get d "Name", get d "Value" with
                         | Done n, Done v => map_set n (to_number v) m
                         | _, _ => m
                         end)
                      decls acc)).
  { clear HI. induction HD as [| d decls [fs ->] _ IH]; intros acc; [reflexivity |].
    cbn [foldM fold_left get]. rewrite !bind_lift_done, bind_ret_l. apply IH. }
  rewrite F, bind_ret_l. reflexivity.
Qed.

(** C3. An enum source with a single [Item] child does not load: the parser
    hands [processEnumStructure] the child itself, not a list, [forEach] is
    missing on it, and the exception ends [readStructures]; nothing is
    registered.  The class loader, next to it, accepts a single [Property]
    child. *)
Theorem single_item_enum_fails_to_load :
  processEnumStructure singleItemEnum = ([], Thrown TypeError)
  /\ readStructures [("Suit.xml", singleItemEnum)] "data" false
     = ([], Thrown TypeError)
  /\ processClassStructure singlePropertyClass
     = ret {| class_name := JStr "Card";
              properties := [(JStr "Title", PString JUndef JUndef)] |}.
Proof. repeat split; reflexivity. Qed.

(** ** Loading a class *)

Lemma silent_bind_lift {A B} (o : outcome A) (f : A -> M B) :
  (forall a, silent (f a)) -> silent (bind (lift o) f).
Proof.
  unfold silent. destruct o as [a | e |]; simpl; intros H; try reflexivity.
  specialize (H a). destruct (f a). exact H.
Qed.

Lemma processProperty_silent property : silent (processProperty property).
Proof.
  unfold processProperty.
  repeat first
    [ apply silent_bind_lift; intros ?
    | reflexivity
    | match goal with
      | |- silent (if ?b then _ else _) => destruct b
      end ].
Qed.

Lemma processProperty_terminates property : terminates (processProperty property).
Proof.
  unfold processProperty.
  repeat first
    [ terminates_step
    | match goal with
      | |- terminates (lift (if ?b then _ else _)) => destruct b
      | |- terminates (if ?b then _ else _) => destruct b
      | |- terminates (lift (Done _)) => discriminate
      end ].
Qed.

(** The [try]/[catch] around one declaration, on a class source whose name
    can be read. *)
Lemma tryProperty_spec data cls className props d :
  get data "Class" = Done cls ->
  get cls "Name" = Done className ->
  isElement d ->
  tryProperty data props d
  = match snd (processProperty d) with
    | Done p => ([], Done (map_set (declaredName d) p props))
    | Thrown e => ([propertyError className d e], Done props)
    | Exhausted => ([], Exhausted)
    end.
Proof.
  intros HC HN [fs ->].
  pose proof (processProperty_silent (JObj fs)) as S.
  unfold tryProperty, propertyError, declaredName.
  destruct (processProperty (JObj fs)) as [l [p | e |]]; unfold silent in S;
    simpl in S; subst l; cbn [snd].
  - reflexivity.
  - unfold try_catch. cbn [bind]. cbn [get].
    rewrite bind_lift_done, HC, bind_lift_done, HN, bind_lift_done.
    reflexivity.
  - reflexivity.
Qed.

Lemma foldM_tryProperty data cls className decls :
  get data "Class" = Done cls ->
  get cls "Name" = Done className ->
  Forall isElement decls ->
  forall props,
    foldM (tryProperty data) props decls
    = (flat_map (fun d => match snd (processProperty d) with
                          | Thrown e => [propertyError className d e]
                          | _ => []
                          end) decls,
       Done (fold_left (fun props d =>
                          match snd (processProperty d) with
                          | Done p => map_set (declaredName d) p props
                          | _ => props
                          end) decls props)).
Proof.
  intros HC HN HD. induction HD as [| d decls Hd _ IH]; intros props.
  - reflexivity.
  - cbn [foldM flat_map fold_left].
    rewrite (tryProperty_spec data cls className props d HC HN Hd).
    pose proof (processProperty_terminates d) as T. unfold terminates in T.
    destruct (snd (processProperty d)) as [p | e |]; [| | contradiction].
    + cbn [bind]. rewrite IH. reflexivity.
    + cbn [bind]. rewrite IH. reflexivity.
Qed.

Lemma bind_ret_r {A} (m : M A) : bind m ret = m.
Proof.
  destruct m as [l [a | e |]]; simpl; try reflexivity. now rewrite app_nil_r.
Qed.

Lemma processClassStructure_spec data cls className property :
  get data "Class" = Done cls ->
  get cls "Name" = Done className ->
  get cls "Property" = Done property ->
  Forall isElement (declarations property) ->
  processClassStructure data
  = (propertyErrors className (declarations property),
     Done {| class_name := className;
             properties := survivingProperties (declarations property) |}).
Proof.
  intros HC HN HP HD. unfold processClassStructure.
  rewrite HC, bind_lift_done, HN, bind_lift_done, HP, bind_lift_done.
  assert (E : match property with
              | JArr l => foldM (tryProperty data) [] l
              | _ => tryProperty data [] property
              end = foldM (tryProperty data) [] (declarations property)).
  { destruct property; cbn [declarations foldM]; now rewrite ?bind_ret_r. }
  rewrite E, (foldM_tryProperty data cls className _ HC HN HD). cbn [bind ret].
  unfold propertyErrors, survivingProperties. now rewrite app_nil_r.
Qed.

Lemma recognizedType_false type :
  recognizedType type = false ->
  is_str type "Object" = false /\ is_str type "Enum" = false
  /\ is_str type "String" = false /\ is_str type "Number" = false
  /\ is_str type "Boolean" = false /\ is_str type "Collection" = false
  /\ is_str type "Command" = false.
Proof.
  unfold recognizedType. intros H.
  repeat match type of H with
         | _ || _ = false => apply orb_false_elim in H; destruct H as [H ?]
         end.
  repeat split; assumption.
Qed.

(** What [processProperty] does with a declaration whose [Type] it does not
    recognize. *)
Lemma processProperty_unrecognized d type :
  isElement d ->
  get d "Type" = Done type ->
  recognizedType type = false ->
  exists e,
    processProperty d = ([], Thrown e)
    /\ (forall subType,
          get d "SubType" = Done subType ->
          truthy subType = false \/ (exists s, subType = JStr s) ->
          e = Error ("Unknown property type: " ++ to_string type)).
Proof.
  intros [fs ->] HT HR.
  destruct (recognizedType_false type HR) as (R1 & R2 & R3 & R4 & R5 & R6 & R7).
  unfold processProperty. cbn [get] in *. injection HT as HT.
  rewrite bind_lift_done.
  destruct (truthy (lookup_field "SubType" fs)) eqn:Tr.
  - destruct (lookup_field "SubType" fs) as [| | b | n | s | l | o] eqn:ES;
      cbn [split].
    1-4, 6-7:
      (exists TypeError; split; [reflexivity |];
       intros subType [= <-] [F | [s' F]]; [simpl in *; congruence | discriminate]).
    rewrite bind_lift_done, bind_lift_done, HT, R1, R2, R3, R4, R5, R6, R7.
    eexists. split; [reflexivity |]. reflexivity.
  - rewrite bind_lift_done, bind_lift_done, HT, R1, R2, R3, R4, R5, R6, R7.
    eexists. split; [reflexivity |]. reflexivity.
Qed.

Lemma survivingProperties_app l1 l2 :
  survivingProperties (l1 ++ l2)
  = fold_left
      (fun props d =>
         match snd (processProperty d) with
         | Done p => map_set (declaredName d) p props
         | _ => props
         end)
      l2 (survivingProperties l1).
Proof. unfold survivingProperties. apply fold_left_app. Qed.

Lemma in_propertyErrors className d e decls :
  In d decls -> snd (processProperty d) = Thrown e ->
  In (propertyError className d e) (propertyErrors className decls).
Proof.
  intros Hd He. unfold propertyErrors. apply in_flat_map.
  exists d. split; [assumption |]. rewrite He. now left.
Qed.

(** C4. In a class source, a property declaration with an unrecognized
    [Type] makes [processProperty] throw; the exception is caught and logged
    with the property's and the class's name, the declaration adds nothing
    to the class, and the class is built from the other declarations and
    registered under its name. *)
Theorem unrecognized_type_drops_the_property :
  forall data cls className property file structures isVerbose,
    get data "Class" = Done cls ->
    truthy cls = true ->
    get cls "Name" = Done className ->
    get cls "Property" = Done property ->
    Forall isElement (declarations property) ->
    ends_with ".xml" file = true ->
    let decls := declarations property in
    let loaded := {| class_name := className;
                     properties := survivingProperties decls |} in
    (forall before d after type,
        decls = (before ++ d :: after)%list ->
        get d "Type" = Done type ->
        recognizedType type = false ->
        exists e,
          processProperty d = ([], Thrown e)
          /\ (forall subType,
                get d "SubType" = Done subType ->
                truthy subType = false \/ (exists s, subType = JStr s) ->
                e = Error ("Unknown property type: " ++ to_string type))
          /\ (forall props,
                tryProperty data props d
                = ([propertyError className d e], Done props))
          /\ In (propertyError className d e)
                (fst (processClassStructure data))
          /\ survivingProperties decls
             = survivingProperties (before ++ after))
    /\ processClassStructure data
       = (propertyErrors className decls, Done loaded)
    /\ readStructureFile isVerbose structures (file, data)
       = (((if isVerbose then [Console LLog ("- " ++ file) None] else [])
           ++ propertyErrors className decls)%list,
          Done (map_set className (Class loaded) structures)).
Proof.
  intros data cls className property file structures isVerbose
         HC HT HN HP HD HF decls loaded.
  pose proof (processClassStructure_spec data cls className property HC HN HP HD) as PC.
  fold decls in PC. fold loaded in PC.
  split; [| split].
  - intros before d after type Hdecls Hty Hrec.
    assert (Hin : In d decls) by (rewrite Hdecls; apply in_elt).
    assert (Hel : isElement d).
    { unfold decls in Hin. rewrite Forall_forall in HD. now apply HD. }
    destruct (processProperty_unrecognized d type Hel Hty Hrec) as (e & Ee & Hmsg).
    exists e. repeat split.
    + exact Ee.
    + exact Hmsg.
    + intros props.
      rewrite (tryProperty_spec data cls className props d HC HN Hel).
      now rewrite Ee.
    + rewrite PC. cbn [fst]. apply in_propertyErrors; [assumption |].
      now rewrite Ee.
    + rewrite Hdecls, !survivingProperties_app. cbn [fold_left].
      now rewrite Ee.
  - exact PC.
  - unfold readStructureFile. rewrite HF, verbose_done.
    cbn [bind]. rewrite HC, bind_lift_done, HT, PC. cbn [bind ret class_name].
    now rewrite app_nil_r.
Qed.

Lemma unrecognized_type_drops_the_property_witness :
  readStructureFile false [] ("Card.xml",
    JObj [("Class",
           JObj [("Name", JStr "Card");
                 ("Property",
                  JArr [JObj [("Name", JStr "Title"); ("Type", JStr "String")];
                        JObj [("Name", JStr "Glow"); ("Type", JStr "Shader")];
                        JObj [("Name", JStr "Power"); ("Type", JStr "Number")]])])])
  = ([Console LError
        "Error processing property Glow of class Card: Error: Unknown property type: Shader"
        None],
     Done [(JStr "Card",
            Class {| class_name := JStr "Card";
                     properties := [(JStr "Title", PString JUndef JUndef);
                                    (JStr "Power", PNumber JUndef JUndef JUndef)] |})]).
Proof.
  refine (proj2 (proj2 (unrecognized_type_drops_the_property
    (JObj [("Class",
           JObj [("Name", JStr "Card");
                 ("Property",
                  JArr [JObj [("Name", JStr "Title"); ("Type", JStr "String")];
                        JObj [("Name", JStr "Glow"); ("Type", JStr "Shader")];
                        JObj [("Name", JStr "Power"); ("Type", JStr "Number")]])])])
    _ (JStr "Card") _ "Card.xml" [] false
    eq_refl eq_refl eq_refl eq_refl _ eq_refl))).
  repeat constructor; eexists; reflexivity.
Defined.

(* ================================================================== *)
(** * Unresolved structure types *)
(* ================================================================== *)

Lemma processDataStructure_unknown structures indent structureType data
    indentLevel :
  map_get (last_piece (split_on "." structureType)) structures = None ->
  processDataStructure structures indent (JStr structureType) data indentLevel
  = ([Console LError
        ("Unknown structure type for data: "
         ++ to_string (last_piece (split_on "." structureType))) None],
     Done "").
Proof.
  intros H. rewrite processDataStructure_eq. unfold processDataStructureBody.
  cbn [split]. rewrite bind_lift_done, H. reflexivity.
Qed.

(** The run over the data files, one file after the other. *)
Lemma outputDataSets_cons sets structures dataPath scriptPath isVerbose
    indentLevel file others :
  foldM (fun (_ : unit) f =>
           outputDataSet sets structures dataPath scriptPath isVerbose
             indentLevel f) tt (file :: others)
  = bind (outputDataSet sets structures dataPath scriptPath isVerbose
            indentLevel file)
         (fun _ => foldM (fun (_ : unit) f =>
                            outputDataSet sets structures dataPath scriptPath
                              isVerbose indentLevel f) tt others).
Proof. cbn [foldM]. apply bind_ext. now intros []. Qed.

(** C1, as the code has it.  When the root element of a data file names no
    registered structure, [processDataStructure] logs the "unknown structure
    type" error and returns the empty text; the data module of that file is
    written all the same, with nothing after the [=] of its constant, and the
    run goes on with the remaining data files. *)
Theorem unresolved_root_writes_empty_module :
  forall sets structures dataPath scriptPath isVerbose indentLevel
         file rootName rootData rest others,
    find_file file sets = Some (JObj ((rootName, rootData) :: rest)) ->
    map_get (last_piece (split_on "." rootName)) structures = None ->
    let step := outputDataSet sets structures dataPath scriptPath isVerbose
                  indentLevel in
    let run := foldM (fun (_ : unit) f => step f) tt in
    exists segment,
      finalSegmentOf rootName segment
      /\ step file
         = (((if isVerbose then [Console LLog ("- reading " ++ file) None]
              else [])
             ++ [Console LError ("Unknown structure type for data: " ++ segment)
                   None]
             ++ (if isVerbose
                 then [Console LLog
                         ("- writing " ++ replace_first ".xaml" ".ts" file) None]
                 else [])
             ++ [Written (modulePath scriptPath file)
                   (moduleText structures file (JStr rootName) "")])%list,
            Done tt)
      /\ (exists header,
            moduleText structures file (JStr rootName) ""
            = header ++ "export const dataContext: " ++ rootName ++ " = ;"
              ++ newline)
      /\ run (file :: others)
         = ((fst (step file) ++ fst (run others))%list, snd (run others)).
Proof.
  intros sets structures dataPath scriptPath isVerbose indentLevel
         file rootName rootData rest others HF HU step run.
  destruct (split_on_final "." rootName) as (segment & ES & Hc & Hs).
  exists segment.
  assert (E : step file
              = (((if isVerbose then [Console LLog ("- reading " ++ file) None]
                   else [])
                  ++ [Console LError
                        ("Unknown structure type for data: " ++ segment) None]
                  ++ (if isVerbose
                      then [Console LLog
                              ("- writing " ++ replace_first ".xaml" ".ts" file)
                              None]
                      else [])
                  ++ [Written (modulePath scriptPath file)
                        (moduleText structures file (JStr rootName) "")])%list,
                 Done tt)).
  { unfold step, outputDataSet. rewrite !verbose_done, HF.
    cbn [bind ret object_keys map fst lift to_string get lookup_field].
    rewrite String.eqb_refl.
    rewrite (processDataStructure_unknown structures "" rootName rootData
               indentLevel HU), ES.
    unfold write_file, modulePath. destruct isVerbose; reflexivity. }
  repeat split.
  - exact Hc.
  - exact Hs.
  - exact E.
  - unfold moduleText. cbn [to_string].
    exists ("// Auto-generated data context from Noesis data set: " ++ file
            ++ newline ++ newline
            ++ "import { " ++ joinNames (importNames structures) ++ " } from "
            ++ quote ++ "./NoesisTypes" ++ quote ++ ";" ++ newline ++ newline).
    now rewrite !append_assoc.
  - unfold run, step in *. rewrite outputDataSets_cons, E. cbn [bind fst].
    match goal with |- context [foldM ?f tt others] =>
      destruct (foldM f tt others) end.
    reflexivity.
Qed.

Lemma unresolved_root_writes_empty_module_witness :
  exists segment,
    finalSegmentOf "Game.Deck" segment
    /\ outputDataSet [("deck.xaml", JObj [("Game.Deck", JStr "")])]
         (addBuiltInEnums (addBuiltInTypes [])) "data" "out" false 2 "deck.xaml"
       = ([Console LError ("Unknown structure type for data: " ++ segment) None;
           Written "out/deck.ts"
             (moduleText (addBuiltInEnums (addBuiltInTypes [])) "deck.xaml"
                (JStr "Game.Deck") "")],
          Done tt).
Proof.
  destruct (unresolved_root_writes_empty_module
              [("deck.xaml", JObj [("Game.Deck", JStr "")])]
              (addBuiltInEnums (addBuiltInTypes [])) "data" "out" false 2
              "deck.xaml" "Game.Deck" (JStr "") [] []
              eq_refl eq_refl) as (segment & Hs & E & _).
  exists segment. split; [exact Hs | exact E].
Defined.

(** C1, as the specification words it, fails: with an unresolved root the
    module of that file is among the files written. *)
Lemma unresolved_root_still_writes : ~ unresolvedRootWritesNothing.
Proof.
  intros H.
  apply (H [("deck.xaml", JObj [("Deck", JStr "")])]
           (addBuiltInEnums (addBuiltInTypes [])) "data" "out" None false 2
           "deck.xaml" "Deck" (JStr "") []
           (moduleText (addBuiltInEnums (addBuiltInTypes [])) "deck.xaml"
              (JStr "Deck") "")).
  - left. reflexivity.
  - reflexivity.
  - reflexivity.
  - vm_compute. right. left. reflexivity.
Qed.

(* ================================================================== *)
(** * Class literals and missing values *)
(* ================================================================== *)

Lemma get_defined data k w k' :
  get data k = Done w -> exists w', get data k' = Done w'.
Proof.
  destruct data as [| | b | n | s | l | fs]; simpl; try discriminate; intros _.
  - now eexists.
  - now eexists.
  - destruct (String.eqb k' "length"); [now eexists |].
    destruct (index_of_key k'); now eexists.
  - destruct (String.eqb k' "length"); [now eexists |].
    destruct (index_of_key k'); now eexists.
  - now eexists.
Qed.







(* ================================================================== *)
(** * Collections *)
(* ================================================================== *)




(* ================================================================== *)
(** * Images *)
(* ================================================================== *)

Lemma split_on_whole c s : contains c s = false -> split_on c s = [s].
Proof.
  induction s as [| a s IH]; simpl; [reflexivity |].
  destruct (Ascii.eqb a c); simpl; [discriminate |].
  intros H. now rewrite (IH H).
Qed.

Lemma split_on_head c head rest :
  contains c head = false ->
  split_on c (head ++ String c rest) = head :: split_on c rest.
Proof.
  induction head as [| a head IH]; simpl.
  - now rewrite Ascii.eqb_refl.
  - destruct (Ascii.eqb a c); simpl; [discriminate |].
    intros H. now rewrite (IH H).
Qed.

(** The second piece of a split: the text between the first and the second
    separator, or the text after the first when there is no second. *)
Lemma split_on_second c head part tail :
  contains c head = false ->
  contains c part = false ->
  tail = "" \/ (exists t, tail = String c t) ->
  nth_error (split_limit c 2 (head ++ String c (part ++ tail))) 1 = Some part.
Proof.
  intros Hh Hp Ht. unfold split_limit. rewrite (split_on_head c head _ Hh).
  destruct Ht as [-> | [t ->]].
  - rewrite append_nil_r, (split_on_whole c part Hp). reflexivity.
  - rewrite (split_on_head c part t Hp). reflexivity.
Qed.

Lemma prefix_app p s : prefix p (p ++ s) = true.
Proof.
  induction p as [| a p IH]; simpl; [now destruct s |].
  destruct (ascii_dec a a); [exact IH | contradiction].
Qed.

Lemma drop_app p s : drop (String.length p) (p ++ s) = s.
Proof. induction p; simpl; auto. Qed.

Lemma replace_first_prefix p rep s : replace_first p rep (p ++ s) = rep ++ s.
Proof.
  assert (U : forall t, replace_first p rep t
                        = if prefix p t then rep ++ drop (String.length p) t
                          else match t with
                               | EmptyString => EmptyString
                               | String a t' => String a (replace_first p rep t')
                               end) by (now intros []).
  now rewrite U, prefix_app, drop_app.
Qed.

Lemma nonempty_some p : p <> "" -> nonempty (Some p) = Some p.
Proof. destruct p; [contradiction | reflexivity]. Qed.




(* ================================================================== *)
(** * The registry *)
(* ================================================================== *)

Lemma same_key_eq a b : same_key a b = true -> a = b.
Proof.
  destruct a as [| | x | [| x] | x | x | x], b as [| | y | [| y] | y | y | y];
    simpl; try discriminate; try reflexivity; intros H.
  - apply Bool.eqb_prop in H. now subst.
  - apply Z.eqb_eq in H. now subst.
  - apply String.eqb_eq in H. now subst.
Qed.

Lemma same_key_sym a b : same_key a b = same_key b a.
Proof.
  destruct a as [| | x | [| x] | x | x | x], b as [| | y | [| y] | y | y | y];
    simpl; try reflexivity.
  - now destruct x, y.
  - apply Z.eqb_sym.
  - apply String.eqb_sym.
Qed.

(** [set] then [get]: the key reads the new value, every other key reads
    what it read before. *)
Lemma map_get_set {V} (a k : value) (v : V) m :
  map_get k (map_set a v m) = if same_key a k then Some v else map_get k m.
Proof.
  induction m as [| [k' v'] m IH]; simpl.
  - reflexivity.
  - destruct (same_key k' a) eqn:E1; simpl.
    + apply same_key_eq in E1. subst k'. now destruct (same_key a k).
    + rewrite IH.
      destruct (same_key k' k) eqn:E2; [| reflexivity].
      destruct (same_key a k) eqn:E3; [| reflexivity].
      pose proof (same_key_eq _ _ E2). pose proof (same_key_eq _ _ E3).
      subst. congruence.
Qed.

Lemma uniqueKeys_set {V} (a : value) (v : V) m :
  uniqueKeys m -> uniqueKeys (map_set a v m).
Proof.
  induction m as [| [k' v'] m IH]; simpl.
  - auto.
  - intros [H1 H2]. destruct (same_key k' a) eqn:E; simpl.
    + auto.
    + split; [| auto]. rewrite map_get_set, same_key_sym, E. exact H1.
Qed.

(** A registration under a key that is present replaces: the map does not
    grow. *)
Lemma map_set_replaces {V} (a : value) (v : V) m :
  map_get a m <> None -> List.length (map_set a v m) = List.length m.
Proof.
  induction m as [| [k' v'] m IH]; simpl.
  - congruence.
  - destruct (same_key k' a); simpl; [reflexivity |].
    intros H. now rewrite IH.
Qed.

Lemma uniqueKeys_fold {V} (regs : list (value * V)) m :
  uniqueKeys m ->
  uniqueKeys (fold_left (fun m r => map_set (fst r) (snd r) m) regs m).
Proof.
  revert m. induction regs as [| r regs IH]; intros m H; simpl; [exact H |].
  apply IH, uniqueKeys_set, H.
Qed.

Lemma uniqueKeys_builtIns : uniqueKeys builtIns.
Proof. vm_compute. repeat split. Qed.

Lemma lastRegistration_from k regs init :
  fold_left (fun found r => if same_key (fst r) k then Some (snd r) else found)
            regs init
  = match lastRegistration k regs with
    | Some s => Some s
    | None => init
    end.
Proof.
  unfold lastRegistration. revert init.
  induction regs as [| r regs IH]; intros init; simpl; [reflexivity |].
  rewrite IH. rewrite (IH (if same_key (fst r) k then Some (snd r) else None)).
  destruct (fold_left _ regs None); [reflexivity |].
  now destruct (same_key (fst r) k).
Qed.

(** Last registration wins. *)
Lemma map_get_fold k regs (m : NoesisStructureMap) :
  map_get k (fold_left (fun m r => map_set (fst r) (snd r) m) regs m)
  = match lastRegistration k regs with
    | Some s => Some s
    | None => map_get k m
    end.
Proof.
  revert m. induction regs as [| r regs IH]; intros m; simpl; [reflexivity |].
  rewrite IH, map_get_set. unfold lastRegistration at 2. simpl.
  rewrite lastRegistration_from.
  destruct (lastRegistration k regs); [reflexivity |].
  now destruct (same_key (fst r) k).
Qed.

(** One step of the loading loop adds the file's registration, if any. *)
Lemma readStructureFile_registers isVerbose structures entry trace structures' :
  readStructureFile isVerbose structures entry = (trace, Done structures') ->
  structures' = match registrationOf entry with
                | Some r => map_set (fst r) (snd r) structures
                | None => structures
                end.
Proof.
  destruct entry as [file result].
  unfold readStructureFile, registrationOf. cbn [fst snd].
  destruct (ends_with ".xml" file); [| now intros [= _ <-]].
  rewrite verbose_done. intros H.
  apply bind_inv_done in H. destruct H as (l1 & [] & l2 & _ & H & _).
  destruct (get result "Class") as [cls | e |]; try discriminate H.
  rewrite bind_lift_done in H.
  destruct (truthy cls).
  - apply bind_inv_done in H. destruct H as (l3 & c & l4 & Hc & H & _).
    rewrite Hc. cbn [snd fst]. now injection H as _ <-.
  - destruct (get result "Enum") as [enum | e |]; try discriminate H.
    rewrite bind_lift_done in H.
    destruct (truthy enum).
    + apply bind_inv_done in H. destruct H as (l3 & c & l4 & Hc & H & _).
      rewrite Hc. cbn [snd fst]. now injection H as _ <-.
    + now injection H as _ <-.
Qed.

Lemma foldM_readStructureFile isVerbose files :
  forall structures trace structures',
    foldM (readStructureFile isVerbose) structures files
    = (trace, Done structures') ->
    structures' = fold_left (fun m r => map_set (fst r) (snd r) m)
                            (registrationsOf files) structures.
Proof.
  induction files as [| f files IH]; intros structures trace structures' H.
  - now injection H as _ <-.
  - cbn [foldM] in H.
    apply bind_inv_done in H. destruct H as (l1 & m1 & l2 & H1 & H2 & _).
    apply readStructureFile_registers in H1. apply IH in H2.
    unfold registrationsOf. cbn [flat_map]. rewrite fold_left_app. fold (registrationsOf files).
    subst. destruct (registrationOf f); reflexivity.
Qed.

(** The console output of a loading step does not depend on what is
    registered already: replacing an entry is silent. *)
Lemma readStructureFile_trace isVerbose m1 m2 entry :
  fst (readStructureFile isVerbose m1 entry)
  = fst (readStructureFile isVerbose m2 entry).
Proof.
  destruct entry as [file result]. unfold readStructureFile.
  destruct (ends_with ".xml" file); [| reflexivity].
  rewrite verbose_done. cbn [bind].
  destruct (get result "Class") as [cls | e |]; try reflexivity.
  rewrite !bind_lift_done.
  destruct (truthy cls).
  - destruct (processClassStructure result) as [l [c | e |]]; reflexivity.
  - destruct (get result "Enum") as [enum | e |]; try reflexivity.
    rewrite !bind_lift_done.
    destruct (truthy enum); [| reflexivity].
    destruct (processEnumStructure result) as [l [c | e |]]; reflexivity.
Qed.

(** C8. The registry holds at most one entry per name.  It starts from the
    built-in types and enums, the registrations of the schema files are
    applied to it in the order of the files, a registration under a name
    already present replaces the entry without any console output, and so
    every name reads its last registration, or its built-in when no file
    registers it.  Each single registration keeps the keys unique, is what
    the name reads afterwards, and leaves the size of the registry as it was
    when the name was present. *)
Theorem registry_last_registration_wins :
  forall files dataPath isVerbose trace registry,
    readStructures files dataPath isVerbose = (trace, Done registry) ->
    uniqueKeys registry
    /\ readStructures [] dataPath false = ([], Done builtIns)
    /\ map fst builtIns
       = map JStr (NoesisBuiltInSubTypes ++ map fst NoesisBuiltInEnums)
    /\ registry = fold_left (fun m r => map_set (fst r) (snd r) m)
                            (registrationsOf files) builtIns
    /\ (forall name,
          map_get name registry
          = match lastRegistration name (registrationsOf files) with
            | Some structure => Some structure
            | None => map_get name builtIns
            end)
    /\ (forall m1 m2 entry,
          fst (readStructureFile isVerbose m1 entry)
          = fst (readStructureFile isVerbose m2 entry))
    /\ (forall (m : NoesisStructureMap) name structure,
          (uniqueKeys m -> uniqueKeys (map_set (JStr name) structure m))
          /\ map_get (JStr name) (map_set (JStr name) structure m)
             = Some structure
          /\ (map_get (JStr name) m <> None ->
              List.length (map_set (JStr name) structure m) = List.length m)).
Proof.
  intros files dataPath isVerbose trace registry H.
  assert (E : registry = fold_left (fun m r => map_set (fst r) (snd r) m)
                                   (registrationsOf files) builtIns).
  { unfold readStructures in H. rewrite verbose_done in H.
    apply bind_inv_done in H. destruct H as (l1 & [] & l2 & _ & H & _).
    apply bind_inv_done in H. destruct H as (l3 & m & l4 & H1 & H2 & _).
    apply foldM_readStructureFile in H1.
    rewrite verbose_done in H2. cbn [bind ret] in H2.
    injection H2 as _ <-. exact H1. }
  split; [| split; [| split; [| split; [| split; [| split]]]]].
  - rewrite E. apply uniqueKeys_fold, uniqueKeys_builtIns.
  - reflexivity.
  - reflexivity.
  - exact E.
  - intros name. rewrite E. apply map_get_fold.
  - intros m1 m2 entry. apply readStructureFile_trace.
  - intros m name structure. split; [| split].
    + apply uniqueKeys_set.
    + rewrite map_get_set. cbn [same_key]. now rewrite String.eqb_refl.
    + apply map_set_replaces.
Qed.

Lemma registry_last_registration_wins_witness :
  map_get (JStr "Card") sampleRegistry
  = Some (Class {| class_name := JStr "Card";
                   properties := [(JStr "Power", PNumber JUndef JUndef JUndef)] |})
  /\ map_get (JStr "Color") sampleRegistry
     = Some (Enum {| enum_name := JStr "Color";
                     items := [(JStr "Red", Int 0); (JStr "Blue", Int 1)] |})
  /\ map_get (JStr "String") sampleRegistry
     = Some (BuiltIn {| builtin_name := "String" |}).
Proof.
  pose proof (registry_last_registration_wins sampleStructureFiles "data" false
                [] sampleRegistry eq_refl) as (_ & _ & _ & _ & L & _).
  split; [exact (L (JStr "Card")) |].
  split; [exact (L (JStr "Color")) | exact (L (JStr "String"))].
Defined.

(* ================================================================== *)
(** * Bounds recorded at load time *)
(* ================================================================== *)

Lemma foldM_map {A B C} (f : A -> B -> M A) (g : C -> B) l :
  forall acc, foldM f acc (map g l) = foldM (fun a x => f a (g x)) acc l.
Proof.
  induction l as [| x l IH]; intros acc; simpl; [reflexivity |].
  apply bind_ext. intros a. apply IH.
Qed.

Lemma propertyType_erase p : propertyType (eraseBounds p) = propertyType p.
Proof. now destruct p. Qed.

Lemma name_erase s : name (eraseStructure s) = name s.
Proof. now destruct s. Qed.

Lemma outputStructure_erase indent s :
  outputStructure indent (eraseStructure s) = outputStructure indent s.
Proof.
  destruct s as [c | e | b]; try reflexivity.
  unfold outputStructure, eraseStructure. cbn [class_name properties].
  rewrite map_map. cbn [fst snd].
  erewrite map_ext; [reflexivity |].
  intros p. cbv beta. now rewrite propertyType_erase.
Qed.

Lemma typesText_erase r n : typesText (eraseRegistry r) n = typesText r n.
Proof.
  unfold typesText, eraseRegistry. rewrite map_map. cbn [snd].
  erewrite map_ext; [reflexivity |].
  intros s. cbv beta. apply outputStructure_erase.
Qed.

Lemma outputTypes_erase r scriptsPath isVerbose n :
  outputTypes (eraseRegistry r) scriptsPath isVerbose n
  = outputTypes r scriptsPath isVerbose n.
Proof.
  rewrite !outputTypes_trace, typesText_erase.
  unfold eraseRegistry at 1 2. rewrite length_map, map_map. cbn [snd].
  erewrite map_ext; [reflexivity |].
  intros s. cbv beta. now rewrite name_erase.
Qed.

Lemma map_get_erase k r :
  map_get k (eraseRegistry r) = option_map eraseStructure (map_get k r).
Proof.
  induction r as [| [k' s] r IH]; simpl; [reflexivity |].
  now destruct (same_key k' k).
Qed.

Lemma propertyValue_erase recur structureName subIndent data indentLevel
    propName p :
  propertyValue recur structureName subIndent data indentLevel propName
    (eraseBounds p)
  = propertyValue recur structureName subIndent data indentLevel propName p.
Proof. now destruct p. Qed.

Lemma processDataStructureBody_erase recur r indent structureType data
    indentLevel :
  processDataStructureBody recur (eraseRegistry r) indent structureType data
    indentLevel
  = processDataStructureBody recur r indent structureType data indentLevel.
Proof.
  unfold processDataStructureBody. apply bind_ext. intros parts.
  rewrite map_get_erase.
  destruct (map_get (last_piece parts) r) as [[c | e | b] |]; try reflexivity.
  cbn [option_map eraseStructure]. unfold classLiteral. cbn [properties].
  rewrite foldM_map. cbn [fst snd]. f_equal. apply foldM_ext.
  intros acc p _. now rewrite propertyValue_erase.
Qed.

Lemma processDataStructure_rec_erase r fuel :
  forall indent structureType data indentLevel,
    processDataStructure_rec fuel (eraseRegistry r) indent structureType data
      indentLevel
    = processDataStructure_rec fuel r indent structureType data indentLevel.
Proof.
  induction fuel as [| fuel IH]; intros indent ty data lvl; [reflexivity |].
  cbn [processDataStructure_rec].
  rewrite processDataStructureBody_erase.
  apply processDataStructureBody_local. intros i t d l _. apply IH.
Qed.

Lemma processDataStructure_erase r indent structureType data indentLevel :
  processDataStructure (eraseRegistry r) indent structureType data indentLevel
  = processDataStructure r indent structureType data indentLevel.
Proof. apply processDataStructure_rec_erase. Qed.

Lemma importNames_erase r : importNames (eraseRegistry r) = importNames r.
Proof.
  unfold importNames, eraseRegistry.
  induction r as [| [k s] r IH]; simpl; [reflexivity |].
  destruct s; simpl; now rewrite IH.
Qed.

Lemma outputDataSets_erase sets r dataPath scriptPath setName isVerbose n :
  outputDataSets sets (eraseRegistry r) dataPath scriptPath setName isVerbose n
  = outputDataSets sets r dataPath scriptPath setName isVerbose n.
Proof.
  unfold outputDataSets. apply bind_ext. intros _. apply foldM_ext.
  intros [] file _. unfold outputDataSet.
  repeat (apply bind_ext; intros ?).
  rewrite processDataStructure_erase.
  apply bind_ext. intros dataSet.
  unfold moduleText. now rewrite importNames_erase.
Qed.

(** Declarations that agree outside the bounds attributes are classified
    alike, bounds aside. *)
Lemma processProperty_ignores_bounds fs1 fs2 :
  (forall k, isBoundsAttribute k = false ->
             lookup_field k fs1 = lookup_field k fs2) ->
  classifiedUpToBounds (JObj fs1) = classifiedUpToBounds (JObj fs2).
Proof.
  intros H. unfold classifiedUpToBounds, processProperty. cbn [get].
  rewrite !bind_lift_done.
  rewrite (H "SubType" eq_refl), (H "Type" eq_refl), (H "ImageSourcePath" eq_refl).
  destruct (if truthy (lookup_field "SubType" fs2)
            then split (lookup_field "SubType" fs2) "." else Done [])
    as [parts | e |]; try reflexivity.
  rewrite !bind_lift_done.
  repeat match goal with
         | |- context [if ?b then _ else _] => destruct b
         end; reflexivity.
Qed.

(** C10. The word-count bounds of String properties and the range and
    decimal count of Number properties are read from the schema and stored,
    and nothing else: two registries that differ only in them give the same
    type declarations and the same data modules, console output included. *)
Theorem bounds_never_reach_the_output :
  forall r1 r2,
    sameButBounds r1 r2 ->
    (forall scriptsPath isVerbose indentLevel,
        outputTypes r1 scriptsPath isVerbose indentLevel
        = outputTypes r2 scriptsPath isVerbose indentLevel)
    /\ (forall indent structureType data indentLevel,
          processDataStructure r1 indent structureType data indentLevel
          = processDataStructure r2 indent structureType data indentLevel)
    /\ (forall sets dataPath scriptPath setName isVerbose indentLevel,
          outputDataSets sets r1 dataPath scriptPath setName isVerbose
            indentLevel
          = outputDataSets sets r2 dataPath scriptPath setName isVerbose
              indentLevel)
    /\ (forall fs1 fs2,
          (forall k, isBoundsAttribute k = false ->
                     lookup_field k fs1 = lookup_field k fs2) ->
          classifiedUpToBounds (JObj fs1) = classifiedUpToBounds (JObj fs2)).
Proof.
  intros r1 r2 H. unfold sameButBounds in H.
  split; [| split; [| split]].
  - intros. now rewrite <- (outputTypes_erase r1), <- (outputTypes_erase r2), H.
  - intros. now rewrite <- (processDataStructure_erase r1),
      <- (processDataStructure_erase r2), H.
  - intros. now rewrite <- (outputDataSets_erase sets r1),
      <- (outputDataSets_erase sets r2), H.
  - apply processProperty_ignores_bounds.
Qed.

Lemma bounds_never_reach_the_output_witness :
  processDataStructure boundedDeck "" (JStr "Deck")
    (JObj [("Label", JArr [JStr "one two three four"]);
           ("Size", JArr [JNum (Int 99)])]) 2
  = processDataStructure unboundedDeck "" (JStr "Deck")
      (JObj [("Label", JArr [JStr "one two three four"]);
             ("Size", JArr [JNum (Int 99)])]) 2.
Proof.
  apply (bounds_never_reach_the_output boundedDeck unboundedDeck eq_refl).
Defined.

(* ================================================================== *)
(** * The specification's example, end to end *)
(* ================================================================== *)

Example card_literal :
  readStructures [("Card.xml", cardSchema)] "data" false
  = ([], Done cardRegistry)
  /\ processDataStructure cardRegistry "" (JStr "Card")
       (JObj [("Title", JArr [JStr "Ace"]); ("Power", JArr [JNum (Int 3)])]) 2
     = ([], Done ("{" ++ newline
                  ++ "  Title: " ++ quote ++ "Ace" ++ quote ++ "," ++ newline
                  ++ "  Power: 3," ++ newline
                  ++ "}")).
Proof. split; reflexivity. Qed.

Example card_run :
  exists types imports,
    main [("Card.xml", cardSchema)] [("ace.xaml", aceData)] "project" "out"
      None false false 2
    = ([Written "out/NoesisTypes.ts" types;
        Written "out/ace.ts"
          ("// Auto-generated data context from Noesis data set: ace.xaml"
           ++ newline ++ newline
           ++ "import { " ++ imports ++ " } from " ++ quote ++ "./NoesisTypes"
           ++ quote ++ ";" ++ newline ++ newline
           ++ "export const dataContext: Card = {" ++ newline
           ++ "  Title: " ++ quote ++ "Ace" ++ quote ++ "," ++ newline
           ++ "  Power: 3," ++ newline
           ++ "};" ++ newline)],
       Done tt).
Proof.
  exists (typesText cardRegistry 2),
    ("Visibility, Orientation, HorizontalAlignment, VerticalAlignment, "
     ++ "TextAlignment, TextWrapping, TextTrimming, FlowDirection, FontFamily, "
     ++ "Card").
  vm_compute. reflexivity.
Qed.

(* ================================================================== *)
(** * Further properties of the loader *)
(* ================================================================== *)

Lemma recognizedType_true type :
  recognizedType type = true ->
  type = JStr "Object" \/ type = JStr "Enum" \/ type = JStr "String"
  \/ type = JStr "Number" \/ type = JStr "Boolean" \/ type = JStr "Collection"
  \/ type = JStr "Command".
Proof.
  unfold recognizedType, is_str. destruct type; try discriminate.
  intros H.
  repeat match type of H with
         | _ || _ = true => apply orb_true_iff in H; destruct H as [H | H]
         end;
    apply String.eqb_eq in H; subst; tauto.
Qed.

(** [processProperty] on an element, once the reads are done. *)
Lemma processProperty_element fs :
  processProperty (JObj fs)
  = (subTypeParts <- lift (if truthy (lookup_field "SubType" fs)
                           then split (lookup_field "SubType" fs) "."
                           else Done []) ;;
     let subType := lookup_field "SubType" fs in
     let type := lookup_field "Type" fs in
     if is_str type "Object" then
       if is_str subType "Brush" then ret PBrush
       else if is_str subType "ImageSource" then
         ret (PImage (lookup_field "ImageSourcePath" fs))
       else if is_str subType "FontFamily" then ret PFont
       else ret (PObject (last_piece subTypeParts))
     else if is_str type "Enum" then ret (PEnum (last_piece subTypeParts))
     else if is_str type "String" then
       ret (PString (lookup_field "StringMinWordCount" fs)
                    (lookup_field "StringMaxWordCount" fs))
     else if is_str type "Number" then
       ret (PNumber (lookup_field "NumberMinValue" fs)
                    (lookup_field "NumberMaxValue" fs)
                    (lookup_field "NumberDecimalCount" fs))
     else if is_str type "Boolean" then ret PBoolean
     else if is_str type "Collection" then
       ret (PCollection (last_piece subTypeParts))
     else if is_str type "Command" then ret PCommand
     else throw (Error ("Unknown property type: " ++ to_string type))).
Proof.
  unfold processProperty. cbn [get]. rewrite bind_lift_done.
  apply bind_ext. intros parts. rewrite !bind_lift_done. reflexivity.
Qed.

(** X1. A property declaration is classified exactly when its [Type] is one
    of the seven recognized ones and its [SubType] is absent (or otherwise
    falsy) or a string; in every other case [processProperty] throws. *)
Theorem processProperty_succeeds_iff :
  forall d type subType,
    isElement d ->
    get d "Type" = Done type ->
    get d "SubType" = Done subType ->
    ((exists p, processProperty d = ret p)
     <-> recognizedType type = true
         /\ (truthy subType = false \/ exists s, subType = JStr s))
    /\ ((exists e, processProperty d = ([], Thrown e))
        <-> ~ (recognizedType type = true
               /\ (truthy subType = false \/ exists s, subType = JStr s))).
Proof.
  intros d type subType [fs ->] HT HS. cbn [get] in HT, HS.
  injection HT as HT. injection HS as HS.
  rewrite processProperty_element, HT, HS. cbv zeta.
  assert (G : forall parts,
             (recognizedType type = true ->
              exists p,
                (if is_str type "Object" then
                   if is_str subType "Brush" then ret PBrush
                   else if is_str subType "ImageSource" then
                     ret (PImage (lookup_field "ImageSourcePath" fs))
                   else if is_str subType "FontFamily" then ret PFont
                   else ret (PObject (last_piece parts))
                 else if is_str type "Enum" then ret (PEnum (last_piece parts))
                 else if is_str type "String" then
                   ret (PString (lookup_field "StringMinWordCount" fs)
                                (lookup_field "StringMaxWordCount" fs))
                 else if is_str type "Number" then
                   ret (PNumber (lookup_field "NumberMinValue" fs)
                                (lookup_field "NumberMaxValue" fs)
                                (lookup_field "NumberDecimalCount" fs))
                 else if is_str type "Boolean" then ret PBoolean
                 else if is_str type "Collection" then
                   ret (PCollection (last_piece parts))
                 else if is_str type "Command" then ret PCommand
                 else throw (Error ("Unknown property type: " ++ to_string type)))
                = ret p)
             /\ (recognizedType type = false ->
                 (if is_str type "Object" then
                    if is_str subType "Brush" then ret PBrush
                    else if is_str subType "ImageSource" then
                      ret (PImage (lookup_field "ImageSourcePath" fs))
                    else if is_str subType "FontFamily" then ret PFont
                    else ret (PObject (last_piece parts))
                  else if is_str type "Enum" then ret (PEnum (last_piece parts))
                  else if is_str type "String" then
                    ret (PString (lookup_field "StringMinWordCount" fs)
                                 (lookup_field "StringMaxWordCount" fs))
                  else if is_str type "Number" then
                    ret (PNumber (lookup_field "NumberMinValue" fs)
                                 (lookup_field "NumberMaxValue" fs)
                                 (lookup_field "NumberDecimalCount" fs))
                  else if is_str type "Boolean" then ret PBoolean
                  else if is_str type "Collection" then
                    ret (PCollection (last_piece parts))
                  else if is_str type "Command" then ret PCommand
                  else throw (Error ("Unknown property type: " ++ to_string type)))
                 = ([], Thrown (Error ("Unknown property type: "
                                       ++ to_string type))))).
  { intros parts. split.
    - intros R. apply recognizedType_true in R.
      destruct R as [-> | [-> | [-> | [-> | [-> | [-> | ->]]]]]];
        cbn [is_str String.eqb Ascii.eqb Bool.eqb andb];
        repeat match goal with
               | |- context [if ?b then _ else _] => destruct b
               end; eexists; reflexivity.
    - intros R.
      destruct (recognizedType_false type R) as (R1 & R2 & R3 & R4 & R5 & R6 & R7).
      now rewrite R1, R2, R3, R4, R5, R6, R7. }
  destruct (truthy subType) eqn:T.
  - destruct subType as [| | b | n | s | l | o]; cbn [split];
      try (rewrite bind_lift_thrown; split; split;
           [ intros [p E]; discriminate E
           | intros [_ [F | [s F]]]; discriminate
           | intros _; intros [_ [F | [s F]]]; discriminate
           | intros _; now exists TypeError ]).
    rewrite bind_lift_done. destruct (G (split_on "." s)) as [G1 G2].
    destruct (recognizedType type) eqn:R.
    + destruct (G1 eq_refl) as [p ->]. split; split.
      * intros _. split; [reflexivity | right; now exists s].
      * intros _. now exists p.
      * intros [e E]. discriminate E.
      * intros N. exfalso. apply N. split; [reflexivity | right; now exists s].
    + rewrite (G2 eq_refl). split; split.
      * intros [p E]. discriminate E.
      * intros [F _]. discriminate F.
      * intros _ [F _]. discriminate F.
      * intros _. now eexists.
  - rewrite bind_lift_done. destruct (G []) as [G1 G2].
    destruct (recognizedType type) eqn:R.
    + destruct (G1 eq_refl) as [p ->]. split; split.
      * intros _. split; [reflexivity | now left].
      * intros _. now exists p.
      * intros [e E]. discriminate E.
      * intros N. exfalso. apply N. split; [reflexivity | now left].
    + rewrite (G2 eq_refl). split; split.
      * intros [p E]. discriminate E.
      * intros [F _]. discriminate F.
      * intros _ [F _]. discriminate F.
      * intros _. now eexists.
Qed.

Lemma processProperty_succeeds_iff_witness :
  (exists p,
     processProperty (JObj [("Name", JStr "Tags"); ("Type", JStr "Collection");
                            ("SubType", JStr "String")]) = ret p)
  <-> recognizedType (JStr "Collection") = true
      /\ (truthy (JStr "String") = false \/ exists s, JStr "String" = JStr s).
Proof.
  apply (processProperty_succeeds_iff
           (JObj [("Name", JStr "Tags"); ("Type", JStr "Collection");
                  ("SubType", JStr "String")])
           (JStr "Collection") (JStr "String")).
  - now eexists.
  - reflexivity.
  - reflexivity.
Defined.

(** X2. The kinds Enum and Collection carry the final dot-separated segment
    of a (non-empty) [SubType], like Object; when the declaration has no
    [SubType] the three kinds carry [undefined], and the emitted type
    declaration then names the type [undefined]. *)
Theorem subtype_is_final_segment_or_undefined :
  forall d type,
    isElement d ->
    get d "Type" = Done (JStr type) ->
    type = "Object" \/ type = "Enum" \/ type = "Collection" ->
    (forall s,
        get d "SubType" = Done (JStr s) ->
        s <> "" ->
        type <> "Object" ->
        exists segment,
          finalSegmentOf s segment
          /\ processProperty d = ret (subTypedKind type (JStr segment)))
    /\ (get d "SubType" = Done JUndef ->
        processProperty d = ret (subTypedKind type JUndef)
        /\ propertyType (subTypedKind type JUndef)
           = if String.eqb type "Collection" then "Array<undefined>"
             else "undefined").
Proof.
  intros d type [fs ->] HT Hty. cbn [get] in HT. injection HT as HT.
  split.
  - intros s HS Hne Hno. cbn [get] in HS. injection HS as HS.
    rewrite processProperty_element, HS, HT.
    assert (Tr : truthy (JStr s) = true).
    { simpl. destruct (String.eqb s "") eqn:E; [| reflexivity].
      apply String.eqb_eq in E. contradiction. }
    rewrite Tr. cbn [split]. rewrite bind_lift_done.
    destruct (split_on_final "." s) as (segment & E & Hc & Hs).
    exists segment. split; [split; assumption |].
    rewrite E. destruct Hty as [-> | [-> | ->]]; [contradiction | |]; reflexivity.
  - intros HS. cbn [get] in HS. injection HS as HS.
    rewrite processProperty_element, HS, HT. cbn [truthy].
    rewrite bind_lift_done.
    destruct Hty as [-> | [-> | ->]]; split; reflexivity.
Qed.

Lemma subtype_is_final_segment_or_undefined_witness :
  exists segment,
    finalSegmentOf "Game.Suit" segment
    /\ processProperty (JObj [("Name", JStr "Suit"); ("Type", JStr "Enum");
                              ("SubType", JStr "Game.Suit")])
       = ret (subTypedKind "Enum" (JStr segment)).
Proof.
  apply (proj1 (subtype_is_final_segment_or_undefined
                  (JObj [("Name", JStr "Suit"); ("Type", JStr "Enum");
                         ("SubType", JStr "Game.Suit")])
                  "Enum" (ex_intro _ _ eq_refl) eq_refl
                  (or_intror (or_introl eq_refl)))
               "Game.Suit" eq_refl);
    discriminate.
Defined.

(** X3. A class source without any [Property] child does not load: the
    single-declaration branch hands [undefined] to [processProperty], the
    [catch] handler reads [data.Class.Property.Name] and throws in turn, and
    the exception ends [readStructures]. *)
Theorem class_without_property_fails_to_load :
  forall data cls file rest dataPath isVerbose,
    get data "Class" = Done cls ->
    truthy cls = true ->
    get cls "Property" = Done JUndef ->
    ends_with ".xml" file = true ->
    processClassStructure data = ([], Thrown TypeError)
    /\ snd (readStructures ((file, data) :: rest) dataPath isVerbose)
       = Thrown TypeError.
Proof.
  intros data cls file rest dataPath isVerbose HC HT HP HF.
  assert (E : processClassStructure data = ([], Thrown TypeError)).
  { unfold processClassStructure. rewrite HC, bind_lift_done.
    destruct (get_defined cls _ _ "Name" HP) as (n & HN).
    rewrite HN, bind_lift_done, HP, bind_lift_done. reflexivity. }
  split; [exact E |].
  unfold readStructures. rewrite verbose_done. cbn [foldM].
  unfold readStructureFile at 1. rewrite HF, verbose_done.
  cbn [bind]. rewrite HC, bind_lift_done, HT, E. reflexivity.
Qed.

Lemma class_without_property_fails_to_load_witness :
  snd (readStructures
         [("Empty.xml", JObj [("Class", JObj [("Name", JStr "Empty")])]);
          ("Card.xml", cardSchema)] "data" false)
  = Thrown TypeError.
Proof.
  apply (proj2 (class_without_property_fails_to_load
                  (JObj [("Class", JObj [("Name", JStr "Empty")])])
                  (JObj [("Name", JStr "Empty")]) "Empty.xml"
                  [("Card.xml", cardSchema)] "data" false
                  eq_refl eq_refl eq_refl eq_refl)).
Defined.

(** ** Maps filled with fresh keys *)

Lemma map_set_fresh {V} (k : value) (v : V) m :
  Forall (fun e => same_key (fst e) k = false) m ->
  map_set k v m = (m ++ [(k, v)])%list.
Proof.
  induction 1 as [| [k' v'] m H _ IH]; simpl in *; [reflexivity |].
  now rewrite H, IH.
Qed.

Lemma fold_set_distinct {B V} (f : B -> value * V) l :
  distinctKeys (map (fun x => fst (f x)) l) ->
  forall m,
    Forall (fun x => Forall (fun e => same_key (fst e) (fst (f x)) = false) m) l ->
    fold_left (fun m x => map_set (fst (f x)) (snd (f x)) m) l m
    = (m ++ map f l)%list.
Proof.
  induction l as [| x l IH]; intros D m F; simpl.
  - now rewrite app_nil_r.
  - destruct D as [D1 D2]. inversion F as [| ? ? Fx Fl]; subst.
    rewrite (map_set_fresh _ _ _ Fx), IH.
    + rewrite <- app_assoc. simpl. now destruct (f x).
    + exact D2.
    + rewrite Forall_forall in *. intros y Hy.
      apply Forall_app. split; [now apply Fl |].
      constructor; [| constructor]. cbn [fst].
      apply D1. apply in_map_iff. now exists y.
Qed.

Lemma fold_left_agree {A B} (f g : A -> B -> A) l :
  (forall a x, In x l -> f a x = g a x) ->
  forall a, fold_left f l a = fold_left g l a.
Proof.
  induction l as [| x l IH]; intros H a; simpl; [reflexivity |].
  rewrite H by now left. apply IH. intros; apply H; now right.
Qed.

(** X4. An enum source with a list of [Item] elements whose names are
    pairwise different loads into an enum with exactly one member per item,
    in declaration order, each with its name and [Number(Value)]. *)
Theorem enum_items_in_declaration_order :
  forall data enum enumName decls,
    get data "Enum" = Done enum ->
    get enum "Name" = Done enumName ->
    get enum "Item" = Done (JArr decls) ->
    Forall isElement decls ->
    distinctKeys (map declaredName decls) ->
    processEnumStructure data
    = ret {| enum_name := enumName; items := map declaredItem decls |}.
Proof.
  intros data enum enumName decls HE HN HI HD Hk.
  rewrite (processEnumStructure_list data enum enumName decls HE HN HI HD).
  assert (F : fold_left (fun m x => map_set (fst (declaredItem x))
                                        (snd (declaredItem x)) m) decls []
              = map declaredItem decls).
  { apply (fold_set_distinct declaredItem decls Hk []).
    apply Forall_forall. intros; constructor. }
  rewrite <- F. do 2 f_equal.
  apply fold_left_agree. intros m d Hd.
  rewrite Forall_forall in HD. destruct (HD d Hd) as [fs ->]. reflexivity.
Qed.

Lemma enum_items_in_declaration_order_witness :
  processEnumStructure
    (JObj [("Enum", JObj [("Name", JStr "Color");
                          ("Item", JArr [JObj [("Name", JStr "Red");
                                               ("Value", JNum (Int 4))];
                                         JObj [("Name", JStr "Blue");
                                               ("Value", JNum (Int 2))]])])])
  = ret {| enum_name := JStr "Color";
           items := [(JStr "Red", Int 4); (JStr "Blue", Int 2)] |}.
Proof.
  apply (enum_items_in_declaration_order
           (JObj [("Enum", JObj [("Name", JStr "Color");
                          ("Item", JArr [JObj [("Name", JStr "Red");
                                               ("Value", JNum (Int 4))];
                                         JObj [("Name", JStr "Blue");
                                               ("Value", JNum (Int 2))]])])])
           (JObj [("Name", JStr "Color");
                  ("Item", JArr [JObj [("Name", JStr "Red");
                                       ("Value", JNum (Int 4))];
                                 JObj [("Name", JStr "Blue");
                                       ("Value", JNum (Int 2))]])])
           (JStr "Color")
           [JObj [("Name", JStr "Red"); ("Value", JNum (Int 4))];
            JObj [("Name", JStr "Blue"); ("Value", JNum (Int 2))]]
           eq_refl eq_refl eq_refl).
  - repeat constructor; eexists; reflexivity.
  - simpl. repeat constructor.
Defined.

Lemma distinctKeys_strings l : NoDup l -> distinctKeys (map JStr l).
Proof.
  induction 1 as [| m members Hm _ IH]; simpl; [exact I |].
  split; [| exact IH]. apply Forall_forall. intros k Hk.
  apply in_map_iff in Hk. destruct Hk as (m' & <- & Hm').
  cbn [same_key]. apply String.eqb_neq. intros ->. contradiction.
Qed.

Lemma combine_seq_names members : forall n,
  map (fun x : nat * string => fst (JStr (snd x), Int (Z.of_nat (fst x))))
      (combine (seq n (List.length members)) members)
  = map JStr members.
Proof.
  induction members as [| m members IH]; intros n; simpl; [reflexivity |].
  now rewrite IH.
Qed.

Lemma combine_seq_items members : forall n,
  map (fun x : nat * string => (JStr (snd x), Int (Z.of_nat (fst x))))
      (combine (seq n (List.length members)) members)
  = combine (map JStr members)
            (map (fun i => Int (Z.of_nat i)) (seq n (List.length members))).
Proof.
  induction members as [| m members IH]; intros n; simpl; [reflexivity |].
  now rewrite IH.
Qed.

(** X5. A built-in enum whose canonical list has no repeated name gets one
    member per name, in the order of the list, with the position in the list
    as its ordinal. *)
Theorem builtin_enum_ordinals_are_positions :
  forall name members,
    NoDup members ->
    enum_name (builtInEnum name members) = JStr name
    /\ items (builtInEnum name members)
       = combine (map JStr members)
                 (map (fun i => Int (Z.of_nat i)) (seq 0 (List.length members))).
Proof.
  intros name members ND. split; [reflexivity |].
  unfold builtInEnum. cbn [items].
  pose proof (distinctKeys_strings members ND) as D.
  rewrite <- (combine_seq_names members 0) in D.
  pose proof (fold_set_distinct
                (fun x : nat * string => (JStr (snd x), Int (Z.of_nat (fst x))))
                (combine (seq 0 (List.length members)) members) D []) as F.
  cbn [fst snd app] in F. rewrite F.
  - apply combine_seq_items.
  - apply Forall_forall. intros; constructor.
Qed.

Lemma builtin_enum_ordinals_are_positions_witness :
  items (builtInEnum "Visibility" ["Collapsed"; "Visible"; "Hidden"])
  = [(JStr "Collapsed", Int 0); (JStr "Visible", Int 1); (JStr "Hidden", Int 2)].
Proof.
  refine (proj2 (builtin_enum_ordinals_are_positions "Visibility"
                   ["Collapsed"; "Visible"; "Hidden"] _)).
  repeat constructor; simpl; intuition discriminate.
Defined.

(** ** What the loading loop skips *)

Lemma foldM_append {A B} (f : A -> B -> M A) l1 l2 acc :
  foldM f acc (l1 ++ l2) = bind (foldM f acc l1) (fun a => foldM f a l2).
Proof.
  revert acc. induction l1 as [| x l1 IH]; intros acc; simpl.
  - now destruct (foldM f acc l2).
  - rewrite bind_assoc. apply bind_ext. intros a. apply IH.
Qed.

Lemma foldM_filter {A B} (f : A -> B -> M A) (keep : B -> bool) l :
  (forall a x, keep x = false -> f a x = ret a) ->
  forall acc, foldM f acc l = foldM f acc (filter keep l).
Proof.
  intros H. induction l as [| x l IH]; intros acc; simpl; [reflexivity |].
  destruct (keep x) eqn:E; simpl.
  - apply bind_ext. intros a. apply IH.
  - rewrite (H acc x E), bind_ret_l. apply IH.
Qed.

(** X6. Directory entries whose name does not end with [.xml] play no part
    in loading: the registry, the console output and the outcome are those
    of the schema files alone. *)
Theorem only_xml_files_are_loaded :
  forall files dataPath isVerbose,
    readStructures files dataPath isVerbose
    = readStructures (filter isSchemaFile files) dataPath isVerbose.
Proof.
  intros files dataPath isVerbose. unfold readStructures.
  apply bind_ext. intros _.
  rewrite (foldM_filter (readStructureFile isVerbose) isSchemaFile files);
    [reflexivity |].
  intros a [file result] E. unfold isSchemaFile in E. cbn [fst] in E.
  unfold readStructureFile. now rewrite E.
Qed.

Lemma snd_bind_agree {A B} (m : M A) (f g : A -> M B) :
  (forall a, snd (f a) = snd (g a)) -> snd (bind m f) = snd (bind m g).
Proof.
  intros H. destruct m as [l [a | e |]]; simpl; try reflexivity.
  specialize (H a). destruct (f a), (g a). exact H.
Qed.

Lemma readStructures_outcome files dataPath isVerbose :
  snd (readStructures files dataPath isVerbose)
  = snd (foldM (readStructureFile isVerbose) builtIns files).
Proof.
  unfold readStructures. fold builtIns. rewrite verbose_done. cbn [bind].
  destruct (foldM (readStructureFile isVerbose) builtIns files)
    as [l [m | e |]]; try reflexivity.
  cbn [bind]. rewrite verbose_done. reflexivity.
Qed.

(** X7. A schema file whose root is neither a class nor an enum is
    reported and skipped: the registry stays as it was, and the load ends as
    it would without that file. *)
Theorem unknown_schema_file_is_skipped :
  forall file result cls enum,
    ends_with ".xml" file = true ->
    get result "Class" = Done cls ->
    truthy cls = false ->
    get result "Enum" = Done enum ->
    truthy enum = false ->
    (forall isVerbose structures,
        readStructureFile isVerbose structures (file, result)
        = (((if isVerbose then [Console LLog ("- " ++ file) None] else [])
            ++ [Console LError ("Unknown structure type in file: " ++ file)
                  None])%list,
           Done structures))
    /\ (forall before after dataPath isVerbose,
          snd (readStructures (before ++ (file, result) :: after) dataPath
                 isVerbose)
          = snd (readStructures (before ++ after) dataPath isVerbose)).
Proof.
  intros file result cls enum HF HC TC HE TE.
  assert (S : forall isVerbose structures,
             readStructureFile isVerbose structures (file, result)
             = (((if isVerbose then [Console LLog ("- " ++ file) None] else [])
                 ++ [Console LError ("Unknown structure type in file: " ++ file)
                       None])%list,
                Done structures)).
  { intros isVerbose structures. unfold readStructureFile.
    rewrite HF, verbose_done. cbn [bind].
    rewrite HC, bind_lift_done, TC, HE, bind_lift_done, TE. reflexivity. }
  split; [exact S |].
  intros before after dataPath isVerbose.
  rewrite !readStructures_outcome, !foldM_append.
  apply snd_bind_agree. intros m. cbn [foldM]. rewrite S. cbn [bind].
  now destruct (foldM (readStructureFile isVerbose) m after).
Qed.

Lemma unknown_schema_file_is_skipped_witness :
  snd (readStructures
         ([("Card.xml", cardSchema)]
          ++ ("Style.xml", JObj [("ResourceDictionary", JStr "")]) :: [])
         "data" false)
  = snd (readStructures ([("Card.xml", cardSchema)] ++ []) "data" false).
Proof.
  apply (proj2 (unknown_schema_file_is_skipped "Style.xml"
                  (JObj [("ResourceDictionary", JStr "")]) JUndef JUndef
                  eq_refl eq_refl eq_refl eq_refl eq_refl)).
Defined.

(* ================================================================== *)
(** * What a run can and cannot show *)
(* ================================================================== *)

Section TraceFacts.

Variable P : entry -> Prop.

Lemma traceAll_ret {A} (a : A) : traceAll P (ret a).
Proof. constructor. Qed.

Lemma traceAll_lift {A} (o : outcome A) : traceAll P (lift o).
Proof. constructor. Qed.

Lemma traceAll_throw {A} e : traceAll P (@throw A e).
Proof. constructor. Qed.

Lemma traceAll_console l t : P (Console l t None) -> traceAll P (console l t).
Proof. intros H. constructor; [exact H | constructor]. Qed.

Lemma traceAll_console_inspect l t v :
  P (Console l t (Some v)) -> traceAll P (console_inspect l t v).
Proof. intros H. constructor; [exact H | constructor]. Qed.


Lemma traceAll_write path content :
  P (Written path content) -> traceAll P (write_file path content).
Proof. intros H. constructor; [exact H | constructor]. Qed.

Lemma traceAll_bind {A B} (m : M A) (f : A -> M B) :
  traceAll P m -> (forall a, traceAll P (f a)) -> traceAll P (bind m f).
Proof.
  unfold traceAll. destruct m as [l [a | e |]]; simpl; intros Hm Hf; auto.
  specialize (Hf a). destruct (f a). simpl in *. apply Forall_app. now split.
Qed.

Lemma traceAll_foldM {A B} (f : A -> B -> M A) l :
  (forall acc x, In x l -> traceAll P (f acc x)) ->
  forall acc, traceAll P (foldM f acc l).
Proof.
  induction l as [| x l IH]; intros H acc; simpl.
  - apply traceAll_ret.
  - apply traceAll_bind; [apply H; now left |].
    intros a. apply IH. intros; apply H; now right.
Qed.


Lemma traceAll_escapeString v : traceAll P (escapeString v).
Proof. destruct v; constructor. Qed.

Lemma traceAll_imagePathOf v : traceAll P (imagePathOf v).
Proof. destruct v; constructor. Qed.

Lemma traceAll_processCommand i c l : traceAll P (processCommand i c l).
Proof.
  unfold processCommand. apply traceAll_bind; [apply traceAll_lift |].
  intros; apply traceAll_ret.
Qed.

End TraceFacts.

Ltac trace_step :=
  first
    [ apply traceAll_ret
    | apply traceAll_lift
    | apply traceAll_throw
    | apply traceAll_escapeString
    | apply traceAll_imagePathOf
    | apply traceAll_processCommand
    | apply traceAll_bind; [| intros ? ]
    | match goal with
      | |- traceAll _ (if ?b then _ else _) => destruct b
      | |- traceAll _ (match nonempty ?x with _ => _ end) =>
          destruct (nonempty x)
      end ].

Lemma map_get_In {V} k (m : jsmap V) v :
  map_get k m = Some v -> exists k', In (k', v) m.
Proof.
  induction m as [| [k' v'] m IH]; simpl; [discriminate |].
  destruct (same_key k' k).
  - intros [= <-]. exists k'. now left.
  - intros H. destruct (IH H) as [k'' Hk]. exists k''. now right.
Qed.

Section DataTrace.

Variable P : entry -> Prop.
Variable structures : NoesisStructureMap.
Variable recur : string -> value -> value -> nat -> M string.

Hypothesis warnings : forall t i, P (Console LWarn t i).
Hypothesis unknownStructure :
  forall x, P (Console LError ("Unknown structure type for data: " ++ x) None).
Hypothesis unknownBuiltIn :
  builtInsKnown structures
  \/ forall n, P (Console LError ("Unknown built-in: " ++ n) None).
Hypothesis nested : forall i t d l, traceAll P (recur i t d l).

Lemma traceAll_propertyValue structureName subIndent data indentLevel propName
    property :
  traceAll P (propertyValue recur structureName subIndent data indentLevel
                propName property).
Proof.
  unfold propertyValue.
  apply traceAll_bind; [apply traceAll_lift | intros propValue].
  apply traceAll_bind; [apply traceAll_lift | intros objectPropValue].
  destruct property as [| | | | smin smax | nmin nmax ndec | subType | isp
                        | subType | subType];
    repeat first [ trace_step
                 | apply nested
                 | apply traceAll_console; apply warnings
                 | apply traceAll_console_inspect; apply warnings ].
  destruct a0; repeat first [ trace_step
                            | apply traceAll_console_inspect; apply warnings ].
  unfold processArray. apply traceAll_foldM. intros acc x _.
  apply traceAll_bind; [apply nested | intros; apply traceAll_ret].
Qed.

Lemma traceAll_builtInLiteral key structureName indent data indentLevel b :
  map_get key structures = Some (BuiltIn b) ->
  traceAll P (builtInLiteral structureName indent data indentLevel b).
Proof.
  intros H. unfold builtInLiteral.
  destruct (String.eqb (builtin_name b) "Single") eqn:E1;
    [repeat trace_step |].
  destruct (String.eqb (builtin_name b) "Boolean") eqn:E2;
    [repeat trace_step |].
  destruct (String.eqb (builtin_name b) "String") eqn:E3;
    [repeat trace_step |].
  destruct (String.eqb (builtin_name b) "Color") eqn:E4;
    [repeat trace_step |].
  destruct (String.eqb (builtin_name b) "BitmapImage") eqn:E5;
    [repeat first [trace_step | apply traceAll_console; apply warnings] |].
  destruct (String.eqb (builtin_name b) "SolidColorBrush") eqn:E6;
    [repeat trace_step |].
  destruct (String.eqb (builtin_name b) "MessageCommand") eqn:E7;
    [repeat trace_step |].
  destruct unknownBuiltIn as [K | K].
  - exfalso. apply map_get_In in H. destruct H as [k' H].
    unfold builtInsKnown in K. rewrite Forall_forall in K.
    specialize (K _ H). cbn [snd] in K.
    apply String.eqb_neq in E1, E2, E3, E4, E5, E6, E7.
    simpl in K. intuition congruence.
  - apply traceAll_bind; [apply traceAll_console, K | intros; apply traceAll_ret].
Qed.

Lemma traceAll_body indent structureType data indentLevel :
  traceAll P (processDataStructureBody recur structures indent structureType
                data indentLevel).
Proof.
  unfold processDataStructureBody.
  apply traceAll_bind; [apply traceAll_lift | intros parts].
  destruct (map_get (last_piece parts) structures) as [[c | e | b] |] eqn:G.
  - unfold classLiteral. apply traceAll_bind; [| intros; apply traceAll_ret].
    apply traceAll_foldM. intros acc p _.
    apply traceAll_bind; [apply traceAll_propertyValue |].
    intros; apply traceAll_ret.
  - apply traceAll_ret.
  - eapply traceAll_builtInLiteral; eauto.
  - apply traceAll_bind; [| intros; apply traceAll_ret].
    apply traceAll_console, unknownStructure.
Qed.

End DataTrace.

Lemma traceAll_processDataStructure P structures :
  (forall t i, P (Console LWarn t i)) ->
  (forall x, P (Console LError ("Unknown structure type for data: " ++ x) None)) ->
  (builtInsKnown structures
   \/ forall n, P (Console LError ("Unknown built-in: " ++ n) None)) ->
  forall indent structureType data indentLevel,
    traceAll P (processDataStructure structures indent structureType data
                  indentLevel).
Proof.
  intros H1 H2 H3 indent ty data lvl. unfold processDataStructure.
  generalize (S (depth data)). intros fuel. revert indent ty data lvl.
  induction fuel as [| fuel IH]; intros indent ty data lvl.
  - constructor.
  - cbn [processDataStructure_rec]. now apply traceAll_body.
Qed.

(** ** Invariants of a loaded registry *)

Lemma Forall_map_set {V} (P : value * V -> Prop) k v m :
  P (k, v) -> Forall P m -> Forall P (map_set k v m).
Proof.
  intros Hk. induction 1 as [| [k' v'] m H Hm IH]; simpl.
  - now constructor.
  - destruct (same_key k' k) eqn:E.
    + apply same_key_eq in E. subst k'. now constructor.
    + now constructor.
Qed.

Lemma Forall_fold_set {V} (P : value * V -> Prop) regs :
  Forall P regs ->
  forall m, Forall P m ->
            Forall P (fold_left (fun m r => map_set (fst r) (snd r) m) regs m).
Proof.
  induction 1 as [| [k v] regs H _ IH]; intros m Hm; simpl; [exact Hm |].
  apply IH. now apply Forall_map_set.
Qed.

Lemma readStructures_registry files dataPath isVerbose trace registry :
  readStructures files dataPath isVerbose = (trace, Done registry) ->
  registry = fold_left (fun m r => map_set (fst r) (snd r) m)
                       (registrationsOf files) builtIns.
Proof.
  intros H. unfold readStructures in H. rewrite verbose_done in H.
  apply bind_inv_done in H. destruct H as (l1 & [] & l2 & _ & H & _).
  apply bind_inv_done in H. destruct H as (l3 & m & l4 & H1 & H2 & _).
  apply foldM_readStructureFile in H1.
  rewrite verbose_done in H2. cbn [bind ret] in H2.
  injection H2 as _ <-. exact H1.
Qed.

Lemma registrationOf_shape entry r :
  registrationOf entry = Some r ->
  fst r = name (snd r)
  /\ match snd r with BuiltIn _ => False | _ => True end.
Proof.
  unfold registrationOf.
  destruct (ends_with ".xml" (fst entry)); [| discriminate].
  destruct (get (snd entry) "Class") as [cls | e |]; try discriminate.
  destruct (truthy cls).
  - destruct (snd (processClassStructure (snd entry))); try discriminate.
    intros [= <-]. now split.
  - destruct (get (snd entry) "Enum") as [enum | e |]; try discriminate.
    destruct (truthy enum); [| discriminate].
    destruct (snd (processEnumStructure (snd entry))); try discriminate.
    intros [= <-]. now split.
Qed.

Lemma registrationsOf_shape files :
  Forall (fun r => fst r = name (snd r)
                   /\ match snd r with BuiltIn _ => False | _ => True end)
         (registrationsOf files).
Proof.
  unfold registrationsOf. apply Forall_forall. intros r H.
  apply in_flat_map in H. destruct H as (entry & _ & H).
  destruct (registrationOf entry) as [r' |] eqn:E; [| contradiction].
  destruct H as [<- | []]. now apply (registrationOf_shape entry).
Qed.

Lemma selfNamed_builtIns : selfNamed builtIns.
Proof. vm_compute. repeat constructor. Qed.

Lemma builtInsKnown_builtIns : builtInsKnown builtIns.
Proof.
  unfold builtInsKnown. vm_compute.
  repeat (constructor; [tauto |]). constructor.
Qed.

(** X8. In a registry that [readStructures] returns, every entry is stored
    under the name of its structure and every built-in marker carries one of
    the seven built-in names; so the transformer, run against it, never
    reports an "unknown built-in". *)
Theorem loaded_registry_is_well_formed :
  forall files dataPath isVerbose trace registry,
    readStructures files dataPath isVerbose = (trace, Done registry) ->
    selfNamed registry
    /\ builtInsKnown registry
    /\ (forall indent structureType data indentLevel,
          traceAll notUnknownBuiltIn
            (processDataStructure registry indent structureType data
               indentLevel)).
Proof.
  intros files dataPath isVerbose trace registry H.
  apply readStructures_registry in H.
  pose proof (registrationsOf_shape files) as R.
  assert (K : builtInsKnown registry).
  { subst registry. apply Forall_fold_set; [| apply builtInsKnown_builtIns].
    eapply Forall_impl; [| exact R]. intros [k s] [_ Hs]. cbn [snd] in *.
    now destruct s. }
  split; [| split].
  - subst registry. apply Forall_fold_set; [| apply selfNamed_builtIns].
    eapply Forall_impl; [| exact R]. now intros r [Hr _].
  - exact K.
  - apply traceAll_processDataStructure.
    + intros t i name inspected. discriminate.
    + intros x name inspected E. injection E as E _. simpl in E. congruence.
    + now left.
Qed.

Lemma loaded_registry_is_well_formed_witness :
  traceAll notUnknownBuiltIn
    (processDataStructure cardRegistry "" (JStr "Card")
       (JObj [("Title", JArr [JStr "Ace"])]) 2).
Proof.
  apply (proj2 (proj2 (loaded_registry_is_well_formed
                         [("Card.xml", cardSchema)] "data" false []
                         cardRegistry eq_refl))).
Defined.

(** ** Files written by a run *)







(** ** The command as a whole *)






(** ** The types file *)

Lemma outputStructure_declaration indent s :
  outputStructure indent s = declarationOf indent s.
Proof.
  destruct s as [c | e | b]; [| apply outputStructure_enum | reflexivity].
  unfold outputStructure, declarationOf, classDeclaration.
  now rewrite map_map.
Qed.

Lemma typesText_declarations structures indentLevel :
  typesText structures indentLevel
  = typesPreamble
    ++ concat_strings
         (map (fun s => declarationOf (spaces indentLevel) (snd s))
              (filter isDeclared structures)).
Proof.
  unfold typesText. f_equal.
  induction structures as [| [k s] structures IH]; [reflexivity |].
  cbn [map concat_strings filter snd]. rewrite IH, outputStructure_declaration.
  unfold isDeclared. cbn [snd].
  destruct s; reflexivity.
Qed.

(** X9. [outputTypes] writes one file, after its progress lines: the fixed
    preamble followed by one declaration per class and enum of the registry,
    in registry order (a class with one field per property, in the order of
    its properties; an enum with its members); the built-in markers
    contribute nothing. *)
Theorem types_file_lists_the_declared_structures :
  forall structures scriptsPath isVerbose indentLevel,
    exists progress,
      Forall isConsole progress
      /\ outputTypes structures scriptsPath isVerbose indentLevel
         = ((progress
             ++ [Written (scriptsPath ++ "/NoesisTypes.ts")
                   (typesPreamble
                    ++ concat_strings
                         (map (fun s => declarationOf (spaces indentLevel)
                                          (snd s))
                              (filter isDeclared structures)))])%list,
            Done tt).
Proof.
  intros structures scriptsPath isVerbose indentLevel.
  rewrite outputTypes_trace, typesText_declarations.
  eexists. split; [| reflexivity].
  destruct isVerbose; [| constructor].
  constructor; [exact I |]. apply Forall_forall. intros e H.
  apply in_map_iff in H. destruct H as (s & <- & _). exact I.
Qed.

Lemma in_importNames structures v :
  In v (importNames structures) ->
  exists k s, In (k, s) structures /\ name s = v /\ isDeclared (k, s) = true.
Proof.
  unfold importNames. intros H. apply in_map_iff in H.
  destruct H as ([k s] & <- & H). apply filter_In in H. destruct H as [H1 H2].
  exists k, s. repeat split; [exact H1 |].
  unfold isDeclared. cbn [snd] in *. now destruct s.
Qed.

(** X10. Every name that a data module imports from the types file is the
    name of a type or of an enum that the types file exports. *)
Theorem imported_names_are_exported :
  forall structures indentLevel v,
    In v (importNames structures) ->
    exists before after,
      typesText structures indentLevel
      = before ++ "export type " ++ to_string v ++ " = {" ++ after
      \/ typesText structures indentLevel
         = before ++ "export enum " ++ to_string v ++ " {" ++ after.
Proof.
  intros structures indentLevel v H.
  destruct (in_importNames structures v H) as (k & s & Hin & <- & Hd).
  destruct (typesText_contains structures indentLevel k s Hin)
    as (before & after & E).
  destruct s as [c | e | b]; [| | discriminate Hd].
  - exists (before ++ "// Definition for structure " ++ to_string (class_name c)
            ++ newline),
      (newline
       ++ concat_strings
            (map (fun p => spaces indentLevel ++ to_string (fst p) ++ ": "
                           ++ propertyType (snd p) ++ ";" ++ newline)
                 (properties c))
       ++ "}" ++ newline ++ newline ++ after).
    left. rewrite E. unfold outputStructure. cbn [name].
    now rewrite !append_assoc.
  - exists (before ++ "// Definition for enum " ++ to_string (enum_name e)
            ++ newline),
      (newline
       ++ concat_strings
            (map (fun i => spaces indentLevel ++ quote ++ to_string (fst i)
                           ++ quote ++ " = " ++ quote ++ to_string (fst i)
                           ++ quote ++ "," ++ newline)
                 (items e))
       ++ "}" ++ newline ++ newline ++ after).
    right. rewrite E. unfold outputStructure. cbn [name].
    now rewrite !append_assoc.
Qed.

Lemma imported_names_are_exported_witness :
  exists before after,
    typesText cardRegistry 2
    = before ++ "export type " ++ to_string (JStr "Card") ++ " = {" ++ after
    \/ typesText cardRegistry 2
       = before ++ "export enum " ++ to_string (JStr "Card") ++ " {" ++ after.
Proof.
  apply (imported_names_are_exported cardRegistry 2 (JStr "Card")).
  vm_compute. do 9 right. left. reflexivity.
Defined.

(* ================================================================== *)
(** * Further properties of the transformer *)
(* ================================================================== *)

Lemma escaped_head s :
  match replace_all_char quoteChar ("\" ++ quote) s with
  | String c _ => Ascii.eqb c quoteChar = false
  | EmptyString => True
  end.
Proof.
  destruct s as [| a s]; simpl; [exact I |].
  destruct (Ascii.eqb a quoteChar) eqn:E; simpl; [reflexivity | exact E].
Qed.

Lemma unescapeQuotes_two a b r :
  unescapeQuotes (String a (String b r))
  = if Ascii.eqb a backslash && Ascii.eqb b quoteChar
    then String b (unescapeQuotes r)
    else String a (unescapeQuotes (String b r)).
Proof. reflexivity. Qed.

Lemma unescape_escape s :
  unescapeQuotes (replace_all_char quoteChar ("\" ++ quote) s) = s.
Proof.
  induction s as [| a s IH]; [reflexivity |].
  cbn [replace_all_char].
  destruct (Ascii.eqb a quoteChar) eqn:E.
  - apply Ascii.eqb_eq in E. subst a.
    change (String quoteChar
              (unescapeQuotes (replace_all_char quoteChar ("\" ++ quote) s))
            = String quoteChar s).
    now rewrite IH.
  - pose proof (escaped_head s) as H.
    change (unescapeQuotes
              (String a (replace_all_char quoteChar ("\" ++ quote) s))
            = String a s).
    destruct (replace_all_char quoteChar ("\" ++ quote) s) as [| b r] eqn:R.
    + cbn in IH. subst s. reflexivity.
    + rewrite unescapeQuotes_two, H, andb_false_r. now rewrite IH.
Qed.

Lemma escape_without_quotes s :
  contains quoteChar s = false ->
  replace_all_char quoteChar ("\" ++ quote) s = s.
Proof.
  induction s as [| a s IH]; [reflexivity |].
  cbn [contains replace_all_char].
  destruct (Ascii.eqb a quoteChar); [discriminate |].
  cbn [orb]. intros H. now rewrite (IH H).
Qed.

(** X11. [escapeString] is defined on strings only (anything else makes it
    throw); on a string it is undone by dropping the backslash before each
    double quote, so different strings escape to different texts, and a
    string without double quotes is left as it is. *)
Theorem escapeString_round_trip :
  (forall s,
      exists t,
        escapeString (JStr s) = ret t
        /\ unescapeQuotes t = s
        /\ (contains quoteChar s = false -> t = s))
  /\ (forall s1 s2 t,
        escapeString (JStr s1) = ret t ->
        escapeString (JStr s2) = ret t -> s1 = s2)
  /\ (forall v, (forall s, v <> JStr s) -> escapeString v = throw TypeError).
Proof.
  split; [| split].
  - intros s. eexists. split; [reflexivity |]. split.
    + apply unescape_escape.
    + apply escape_without_quotes.
  - intros s1 s2 t H1 H2. injection H1 as H1. injection H2 as H2.
    assert (E : replace_all_char quoteChar ("\" ++ quote) s1
                = replace_all_char quoteChar ("\" ++ quote) s2)
      by exact (eq_trans H1 (eq_sym H2)).
    rewrite <- (unescape_escape s1), <- (unescape_escape s2). now rewrite E.
  - intros v H. destruct v; try reflexivity. now contradiction (H s).
Qed.

Lemma escapeString_round_trip_witness :
  escapeString (JNum (Int 42)) = throw TypeError.
Proof.
  apply (proj2 (proj2 escapeString_round_trip)). discriminate.
Defined.

(** X12. The scalar kinds do not validate what the data holds.  For a
    present field, String quotes and escapes its first element when that is
    a string and throws when it is not (numeric or boolean text, which the
    parser converts); Number, Boolean, Brush and Font emit the text of the
    first element whatever it is. *)
Theorem scalar_values_are_not_validated :
  forall recur structureName subIndent data indentLevel propName field first,
    get data (to_string propName) = Done field ->
    truthy field = true ->
    get0 field = Done first ->
    let encode := propertyValue recur structureName subIndent data indentLevel
                    propName in
    (forall a b, (forall s, first <> JStr s) ->
                 encode (PString a b) = ([], Thrown TypeError))
    /\ (forall a b s,
          first = JStr s ->
          encode (PString a b)
          = ret (quote ++ replace_all_char quoteChar ("\" ++ quote) s ++ quote))
    /\ (forall a b c, encode (PNumber a b c) = ret (to_string first))
    /\ encode PBoolean = ret (to_string first)
    /\ encode PBrush = ret (quote ++ to_string first ++ quote)
    /\ encode PFont = ret ("FontFamily." ++ to_string first).
Proof.
  intros recur structureName subIndent data indentLevel propName field first
         HF T H0 encode.
  destruct (get_defined data _ _
              (to_string structureName ++ "." ++ to_string propName) HF)
    as (ov & HO).
  repeat split; intros; unfold encode, propertyValue;
    rewrite HF, bind_lift_done, HO, bind_lift_done, T, H0, bind_lift_done;
    subst; try reflexivity.
  match goal with
  | H : forall s, first <> JStr s |- _ =>
      destruct first as [| | x | x | x | x | x]; try reflexivity;
      now contradiction (H x)
  end.
Qed.

Lemma scalar_values_are_not_validated_witness :
  propertyValue (processDataStructure cardRegistry) (JStr "Card") "  "
    (JObj [("Title", JArr [JNum (Int 7)])]) 2 (JStr "Title")
    (PString JUndef JUndef)
  = ([], Thrown TypeError).
Proof.
  apply (proj1 (scalar_values_are_not_validated
                  (processDataStructure cardRegistry) (JStr "Card") "  "
                  (JObj [("Title", JArr [JNum (Int 7)])]) 2 (JStr "Title")
                  (JArr [JNum (Int 7)]) (JNum (Int 7))
                  eq_refl eq_refl eq_refl)).
  discriminate.
Defined.

(** X13. An Object property whose wrapper field is present is encoded by
    the transformer itself, applied to the first element under the
    sub-type's tag, against the sub-type, one indentation level deeper; when
    the wrapper holds nothing under that tag the property throws (no
    placeholder is emitted, unlike for a Collection). *)
Theorem object_property_encoding :
  forall structures structureName subIndent data indentLevel propName subType
         wrapperField wrapper,
    get data (to_string structureName ++ "." ++ to_string propName)
    = Done wrapperField ->
    truthy wrapperField = true ->
    get0 wrapperField = Done wrapper ->
    let run := propertyValue (processDataStructure structures) structureName
                 subIndent data indentLevel propName (PObject subType) in
    (forall nested structureData,
        get wrapper (to_string subType) = Done nested ->
        get0 nested = Done structureData ->
        run = processDataStructure structures subIndent subType structureData
                indentLevel)
    /\ (get wrapper (to_string subType) = Done JUndef ->
        run = ([], Thrown TypeError)).
Proof.
  intros structures structureName subIndent data indentLevel propName subType
         wrapperField wrapper HW T H0 run.
  destruct (get_defined data _ _ (to_string propName) HW) as (pv & HP).
  split.
  - intros nested structureData HN HS. unfold run, propertyValue.
    now rewrite HP, bind_lift_done, HW, bind_lift_done, T, H0, bind_lift_done,
      HN, bind_lift_done, HS, bind_lift_done.
  - intros HN. unfold run, propertyValue.
    now rewrite HP, bind_lift_done, HW, bind_lift_done, T, H0, bind_lift_done,
      HN, bind_lift_done.
Qed.

Lemma object_property_encoding_witness :
  propertyValue (processDataStructure cardRegistry) (JStr "Deck") "  "
    (JObj [("Deck.Top", JArr [JStr ""])]) 2 (JStr "Top") (PObject (JStr "Card"))
  = ([], Thrown TypeError).
Proof.
  apply (proj2 (object_property_encoding cardRegistry (JStr "Deck") "  "
                  (JObj [("Deck.Top", JArr [JStr ""])]) 2 (JStr "Top")
                  (JStr "Card") (JArr [JStr ""]) (JStr "")
                  eq_refl eq_refl eq_refl)).
  reflexivity.
Defined.

(** X14. A Command property whose wrapper field is present: with a
    [MessageCommand] element inside, the value is the callable that logs
    that element's [Message] (printed as it is, without escaping) with the
    optional parameter; with anything else inside, it is the callable that
    warns that the command type is not recognized, and a warning is logged. *)
Theorem command_property_encoding :
  forall recur structureName subIndent data indentLevel propName wrapperField
         commandData messageCommand,
    get data (to_string structureName ++ "." ++ to_string propName)
    = Done wrapperField ->
    truthy wrapperField = true ->
    get0 wrapperField = Done commandData ->
    get commandData "MessageCommand" = Done messageCommand ->
    let run := propertyValue recur structureName subIndent data indentLevel
                 propName PCommand in
    (forall command message,
        truthy messageCommand = true ->
        get0 messageCommand = Done command ->
        get command "Message" = Done message ->
        run = ret ("(parameter?: unknown) => {" ++ newline
                   ++ (subIndent ++ spaces indentLevel) ++ "console.log("
                   ++ quote ++ to_string message ++ quote
                   ++ ", parameter ? parameter : " ++ quote ++ quote ++ ");"
                   ++ newline ++ subIndent ++ "}"))
    /\ (truthy messageCommand = false ->
        run = ([Console LWarn
                  ("Unknown command type for property " ++ to_string propName
                   ++ " of structure " ++ to_string structureName ++ ": "
                   ++ to_string commandData) None],
               Done "() => { console.warn('Command type not recognized'); }")).
Proof.
  intros recur structureName subIndent data indentLevel propName wrapperField
         commandData messageCommand HW T H0 HM run.
  destruct (get_defined data _ _ (to_string propName) HW) as (pv & HP).
  split.
  - intros command message TM HC HMsg. unfold run, propertyValue.
    rewrite HP, bind_lift_done, HW, bind_lift_done, T, H0, bind_lift_done,
      HM, bind_lift_done, TM, HC, bind_lift_done.
    unfold processCommand. now rewrite HMsg, bind_lift_done.
  - intros TM. unfold run, propertyValue.
    now rewrite HP, bind_lift_done, HW, bind_lift_done, T, H0, bind_lift_done,
      HM, bind_lift_done, TM.
Qed.

Lemma command_property_encoding_witness :
  propertyValue (processDataStructure cardRegistry) (JStr "Card") "  "
    (JObj [("Card.Play", JArr [JObj [("ToggleCommand", JArr [JStr ""])]])]) 2
    (JStr "Play") PCommand
  = ([Console LWarn
        "Unknown command type for property Play of structure Card: [object Object]"
        None],
     Done "() => { console.warn('Command type not recognized'); }").
Proof.
  apply (proj2 (command_property_encoding (processDataStructure cardRegistry)
                  (JStr "Card") "  "
                  (JObj [("Card.Play",
                          JArr [JObj [("ToggleCommand", JArr [JStr ""])]])]) 2
                  (JStr "Play")
                  (JArr [JObj [("ToggleCommand", JArr [JStr ""])]])
                  (JObj [("ToggleCommand", JArr [JStr ""])]) JUndef
                  eq_refl eq_refl eq_refl eq_refl)).
  reflexivity.
Defined.

(** ** Qualified type names *)

Lemma last_piece_cons p l : l <> [] -> last_piece (p :: l) = last_piece l.
Proof.
  intros H. unfold last_piece. cbn [rev].
  destruct (rev l) eqn:E; [| reflexivity].
  apply (f_equal (@rev string)) in E. rewrite rev_involutive in E.
  contradiction.
Qed.

Lemma split_on_nonempty c s : split_on c s <> [].
Proof.
  destruct s as [| a s]; simpl; [discriminate |].
  destruct (Ascii.eqb a c); [discriminate |].
  destruct (split_on c s); discriminate.
Qed.

Lemma split_on_two c s :
  contains c s = true -> exists p p' ps, split_on c s = p :: p' :: ps.
Proof.
  induction s as [| a s IH]; cbn [contains split_on]; [discriminate |].
  destruct (Ascii.eqb a c); cbn [orb].
  - intros _. pose proof (split_on_nonempty c s) as N.
    destruct (split_on c s) as [| p ps]; [contradiction |].
    now exists "", p, ps.
  - intros H. destruct (IH H) as (p & p' & ps & ->).
    now exists (String a p), p', ps.
Qed.

Lemma last_piece_qualified c qualifier rest :
  last_piece (split_on c (qualifier ++ String c rest))
  = last_piece (split_on c rest).
Proof.
  induction qualifier as [| a q IH]; cbn [append split_on].
  - rewrite Ascii.eqb_refl. apply last_piece_cons, split_on_nonempty.
  - destruct (Ascii.eqb a c).
    + rewrite last_piece_cons by apply split_on_nonempty. exact IH.
    + rewrite <- IH.
      destruct (split_on_two c (q ++ String c rest)) as (p & p' & ps & ->).
      { rewrite contains_app. cbn [contains]. rewrite Ascii.eqb_refl.
        apply orb_true_r. }
      rewrite !(last_piece_cons _ (p' :: ps)) by discriminate. reflexivity.
Qed.

(** X15. Only the final dot-separated segment of a structure type takes
    part in the transformation: a qualified type name encodes exactly as the
    name after its last qualifier. *)
Theorem qualification_is_discarded :
  forall structures indent qualifier typeName data indentLevel,
    processDataStructure structures indent
      (JStr (qualifier ++ "." ++ typeName)) data indentLevel
    = processDataStructure structures indent (JStr typeName) data indentLevel.
Proof.
  intros structures indent qualifier typeName data indentLevel.
  rewrite !processDataStructure_eq. unfold processDataStructureBody.
  cbn [split]. rewrite !bind_lift_done.
  change (qualifier ++ "." ++ typeName)
    with (qualifier ++ String "." typeName).
  now rewrite last_piece_qualified.
Qed.

(** ** When a property throws *)

Lemma foldM_lines_all_done {B} (g : B -> M string) (h : B -> string -> string)
    l :
  Forall (fun q => exists t v, g q = (t, Done v)) l ->
  forall acc,
    exists trace acc',
      foldM (fun result p => bind (g p) (fun v => ret (result ++ h p v))) acc l
      = (trace, Done acc').
Proof.
  induction 1 as [| q l (t & v & E) _ IH]; intros acc.
  - now exists [], acc.
  - cbn [foldM]. rewrite E. cbn [bind ret].
    destruct (IH (acc ++ h q v)) as (trace & acc' & ->).
    now eexists _, _.
Qed.

(** X17. When the encoding of one property of a class throws, after the
    properties before it were encoded, the whole class literal is lost:
    [processDataStructure] throws the same exception and returns no partial
    literal. *)
Theorem property_failure_loses_the_literal :
  forall structures indent structureType data indentLevel structureName
         structure before p after t e,
    last_piece (split_on "." structureType) = structureName ->
    map_get structureName structures = Some (Class structure) ->
    properties structure = (before ++ p :: after)%list ->
    let encode q := propertyValue (processDataStructure structures)
                      structureName (indent ++ spaces indentLevel) data
                      indentLevel (fst q) (snd q) in
    Forall (fun q => exists tq v, encode q = (tq, Done v)) before ->
    encode p = (t, Thrown e) ->
    snd (processDataStructure structures indent (JStr structureType) data
           indentLevel)
    = Thrown e.
Proof.
  intros structures indent structureType data indentLevel structureName
         structure before p after t e HS HM HP encode HB Hp.
  rewrite processDataStructure_eq. unfold processDataStructureBody.
  cbn [split]. rewrite bind_lift_done, HS, HM.
  unfold classLiteral. rewrite HP, foldM_append.
  destruct (foldM_lines_all_done encode
              (fun q v => (indent ++ spaces indentLevel) ++ to_string (fst q)
                          ++ ": " ++ v ++ "," ++ newline)
              before HB ("{" ++ newline)) as (trace & acc' & E).
  unfold encode in E. rewrite E. cbn [bind foldM].
  unfold encode in Hp. rewrite Hp. reflexivity.
Qed.

Lemma property_failure_loses_the_literal_witness :
  snd (processDataStructure cardRegistry "" (JStr "Card")
         (JObj [("Title", JArr [JStr "Ace"]); ("Power", JArr [JStr "high"]);
                ("Card.Owner", JArr [JStr ""])]) 2)
  = Done ("{" ++ newline ++ "  Title: " ++ quote ++ "Ace" ++ quote ++ ","
          ++ newline ++ "  Power: high," ++ newline ++ "}")
  /\ snd (processDataStructure cardRegistry "" (JStr "Card")
            (JObj [("Title", JArr [JNum (Int 7)]);
                   ("Power", JArr [JNum (Int 3)])]) 2)
     = Thrown TypeError.
Proof.
  split; [reflexivity |].
  apply (property_failure_loses_the_literal cardRegistry "" "Card"
           (JObj [("Title", JArr [JNum (Int 7)]);
                  ("Power", JArr [JNum (Int 3)])]) 2 (JStr "Card")
           {| class_name := JStr "Card";
              properties := [(JStr "Title", PString JUndef JUndef);
                             (JStr "Power", PNumber JUndef JUndef JUndef)] |}
           [] (JStr "Title", PString JUndef JUndef)
           [(JStr "Power", PNumber JUndef JUndef JUndef)] [] TypeError
           eq_refl eq_refl eq_refl).
  - constructor.
  - reflexivity.
Defined.

(** ** Built-in types *)

Lemma processDataStructure_builtIn structures indent structureType data
    indentLevel b :
  map_get (last_piece (split_on "." structureType)) structures
  = Some (BuiltIn b) ->
  processDataStructure structures indent (JStr structureType) data indentLevel
  = builtInLiteral (last_piece (split_on "." structureType)) indent data
      indentLevel b.
Proof.
  intros H. rewrite processDataStructure_eq. unfold processDataStructureBody.
  cbn [split]. now rewrite bind_lift_done, H.
Qed.

(** X21. Values of the built-in types.  [Single], [Boolean] and [Color]
    print the data as it is.  [String] needs a string and throws on anything
    else.  [SolidColorBrush] quotes the first [Color] and throws when the
    element has no [Color].  [BitmapImage] quotes the path cut out of the
    first [UriSource] as the Image property does, throws when the element has
    no [UriSource], and when no path comes out it warns and returns the empty
    text, not an empty string literal. *)
Theorem built_in_values :
  forall structures indent structureType data indentLevel name,
    map_get (last_piece (split_on "." structureType)) structures
    = Some (BuiltIn {| builtin_name := name |}) ->
    let run := processDataStructure structures indent (JStr structureType) data
                 indentLevel in
    (name = "Single" \/ name = "Boolean" \/ name = "Color" ->
     run = ret (to_string data))
    /\ (name = "String" ->
        (forall s, data = JStr s ->
                   run = ret (quote
                              ++ replace_all_char quoteChar ("\" ++ quote) s
                              ++ quote))
        /\ ((forall s, data <> JStr s) -> run = ([], Thrown TypeError)))
    /\ (name = "SolidColorBrush" ->
        (forall color first,
            get data "Color" = Done color -> get0 color = Done first ->
            run = ret (quote ++ to_string first ++ quote))
        /\ (get data "Color" = Done JUndef -> run = ([], Thrown TypeError)))
    /\ (name = "BitmapImage" ->
        (get data "UriSource" = Done JUndef -> run = ([], Thrown TypeError))
        /\ (forall uri raw,
              get data "UriSource" = Done uri ->
              get0 uri = Done (JStr raw) ->
              (forall head path,
                  raw = head ++ ";component/" ++ path ->
                  contains ";" head = false ->
                  contains ";" path = false ->
                  path <> "" ->
                  run = ret (quote ++ path ++ quote))
              /\ (contains ";" raw = false ->
                  run = ([Console LWarn
                            ("Image path not found fo built-in structure "
                             ++ to_string
                                  (last_piece (split_on "." structureType))
                             ++ ": " ++ raw) None],
                         Done "")))).
Proof.
  intros structures indent structureType data indentLevel name HM run.
  assert (R : run = builtInLiteral (last_piece (split_on "." structureType))
                      indent data indentLevel {| builtin_name := name |})
    by (apply processDataStructure_builtIn, HM).
  rewrite R. clear R. unfold builtInLiteral. cbn [builtin_name].
  split; [| split; [| split]].
  - intros [-> | [-> | ->]]; reflexivity.
  - intros ->. cbn [String.eqb Ascii.eqb Bool.eqb]. split.
    + intros s ->. reflexivity.
    + intros H. destruct data; try reflexivity. now contradiction (H s).
  - intros ->. cbn [String.eqb Ascii.eqb Bool.eqb]. split.
    + intros color first HC H0. now rewrite HC, bind_lift_done, H0, bind_lift_done.
    + intros HC. now rewrite HC, bind_lift_done.
  - intros ->. cbn [String.eqb Ascii.eqb Bool.eqb]. split.
    + intros HU. now rewrite HU, bind_lift_done.
    + intros uri raw HU H0. rewrite HU, bind_lift_done, H0, bind_lift_done.
      split.
      * intros head path -> Hh Hp Hne. unfold imagePathOf.
        replace (head ++ ";component/" ++ path)
          with (head ++ String ";" (("component/" ++ path) ++ ""))
          by (now rewrite append_nil_r).
        rewrite (split_on_second ";" head ("component/" ++ path) "" Hh);
          [| exact Hp | now left].
        rewrite bind_ret_l, (replace_first_prefix "component/" "" path).
        cbn [append]. now rewrite (nonempty_some path Hne).
      * intros Hn. unfold imagePathOf, split_limit.
        rewrite (split_on_whole ";" raw Hn). reflexivity.
Qed.

Lemma built_in_values_witness :
  processDataStructure builtIns "" (JStr "BitmapImage")
    (JObj [("UriSource", JArr [JStr "images/icon.png"])]) 2
  = ([Console LWarn
        "Image path not found fo built-in structure BitmapImage: images/icon.png"
        None],
     Done "").
Proof.
  apply (proj2 (proj2 (proj2 (proj2 (proj2 (built_in_values builtIns ""
           "BitmapImage" (JObj [("UriSource", JArr [JStr "images/icon.png"])])
           2 "BitmapImage" eq_refl))) eq_refl)
         (JArr [JStr "images/icon.png"]) "images/icon.png" eq_refl eq_refl)).
  reflexivity.
Defined.

(** ** What the loader records and nothing reads *)

Lemma outputStructure_eraseUnused indent s :
  outputStructure indent (eraseUnused s) = outputStructure indent s.
Proof.
  destruct s as [c | e | b]; try reflexivity.
  - unfold outputStructure, eraseUnused. cbn [class_name properties].
    rewrite map_map. cbn [fst snd].
    erewrite map_ext; [reflexivity |].
    intros [k p]. cbn [fst snd]. now destruct p.
  - unfold outputStructure, eraseUnused. cbn [enum_name items].
    rewrite map_map. reflexivity.
Qed.

Lemma name_eraseUnused s : name (eraseUnused s) = name s.
Proof. now destruct s. Qed.

Lemma outputTypes_eraseUnused r scriptsPath isVerbose n :
  outputTypes (eraseUnusedRegistry r) scriptsPath isVerbose n
  = outputTypes r scriptsPath isVerbose n.
Proof.
  rewrite !outputTypes_trace.
  assert (T : typesText (eraseUnusedRegistry r) n = typesText r n).
  { unfold typesText, eraseUnusedRegistry. rewrite map_map. cbn [snd].
    erewrite map_ext; [reflexivity |].
    intros s. cbv beta. apply outputStructure_eraseUnused. }
  rewrite T. unfold eraseUnusedRegistry at 1 2.
  rewrite length_map, map_map. cbn [snd].
  erewrite map_ext; [reflexivity |].
  intros s. cbv beta. now rewrite name_eraseUnused.
Qed.

Lemma map_get_eraseUnused k r :
  map_get k (eraseUnusedRegistry r) = option_map eraseUnused (map_get k r).
Proof.
  induction r as [| [k' s] r IH]; simpl; [reflexivity |].
  now destruct (same_key k' k).
Qed.

Lemma processDataStructureBody_eraseUnused recur r indent structureType data
    indentLevel :
  processDataStructureBody recur (eraseUnusedRegistry r) indent structureType
    data indentLevel
  = processDataStructureBody recur r indent structureType data indentLevel.
Proof.
  unfold processDataStructureBody. apply bind_ext. intros parts.
  rewrite map_get_eraseUnused.
  destruct (map_get (last_piece parts) r) as [[c | e | b] |]; try reflexivity.
  cbn [option_map eraseUnused]. unfold classLiteral. cbn [properties].
  rewrite foldM_map. cbn [fst snd]. f_equal. apply foldM_ext.
  intros acc [k p] _. cbn [fst snd]. now destruct p.
Qed.

Lemma processDataStructure_eraseUnused r indent structureType data indentLevel :
  processDataStructure (eraseUnusedRegistry r) indent structureType data
    indentLevel
  = processDataStructure r indent structureType data indentLevel.
Proof.
  unfold processDataStructure. generalize (S (depth data)). intros fuel.
  revert indent structureType data indentLevel.
  induction fuel as [| fuel IH]; intros indent ty data lvl; [reflexivity |].
  cbn [processDataStructure_rec].
  rewrite processDataStructureBody_eraseUnused.
  apply processDataStructureBody_local. intros i t d l _. apply IH.
Qed.

Lemma importNames_eraseUnused r :
  importNames (eraseUnusedRegistry r) = importNames r.
Proof.
  unfold importNames, eraseUnusedRegistry.
  induction r as [| [k s] r IH]; simpl; [reflexivity |].
  destruct s; simpl; now rewrite IH.
Qed.

Lemma outputDataSets_eraseUnused sets r dataPath scriptPath setName isVerbose n :
  outputDataSets sets (eraseUnusedRegistry r) dataPath scriptPath setName
    isVerbose n
  = outputDataSets sets r dataPath scriptPath setName isVerbose n.
Proof.
  unfold outputDataSets. apply bind_ext. intros _. apply foldM_ext.
  intros [] file _. unfold outputDataSet.
  repeat (apply bind_ext; intros ?).
  rewrite processDataStructure_eraseUnused.
  apply bind_ext. intros dataSet.
  unfold moduleText. now rewrite importNames_eraseUnused.
Qed.

(** X19. The [ImageSourcePath] recorded for an Image property and the
    ordinals recorded for the items of an enum (the [Value] attributes as
    well as the positions of the built-in members) reach no output: two
    registries that differ only in them give the same type declarations and
    the same data modules, console output included. *)
Theorem image_source_path_and_ordinals_are_unused :
  forall r1 r2,
    eraseUnusedRegistry r1 = eraseUnusedRegistry r2 ->
    (forall scriptsPath isVerbose indentLevel,
        outputTypes r1 scriptsPath isVerbose indentLevel
        = outputTypes r2 scriptsPath isVerbose indentLevel)
    /\ (forall indent structureType data indentLevel,
          processDataStructure r1 indent structureType data indentLevel
          = processDataStructure r2 indent structureType data indentLevel)
    /\ (forall sets dataPath scriptPath setName isVerbose indentLevel,
          outputDataSets sets r1 dataPath scriptPath setName isVerbose
            indentLevel
          = outputDataSets sets r2 dataPath scriptPath setName isVerbose
              indentLevel).
Proof.
  intros r1 r2 H. split; [| split]; intros.
  - now rewrite <- (outputTypes_eraseUnused r1),
      <- (outputTypes_eraseUnused r2), H.
  - now rewrite <- (processDataStructure_eraseUnused r1),
      <- (processDataStructure_eraseUnused r2), H.
  - now rewrite <- (outputDataSets_eraseUnused sets r1),
      <- (outputDataSets_eraseUnused sets r2), H.
Qed.

Lemma image_source_path_and_ordinals_are_unused_witness :
  outputTypes annotatedRegistry "out" false 2
  = outputTypes plainRegistry "out" false 2.
Proof.
  apply (image_source_path_and_ordinals_are_unused annotatedRegistry
           plainRegistry eq_refl).
Defined.

(** ** Names that always resolve *)

Lemma map_get_set_keeps {V} (a k : value) (v : V) m :
  map_get k m <> None -> map_get k (map_set a v m) <> None.
Proof.
  rewrite map_get_set. now destruct (same_key a k).
Qed.

Lemma map_get_fold_keeps {V} (regs : list (value * V)) k :
  forall m, map_get k m <> None ->
            map_get k (fold_left (fun m r => map_set (fst r) (snd r) m) regs m)
            <> None.
Proof.
  induction regs as [| r regs IH]; intros m H; simpl; [exact H |].
  apply IH, map_get_set_keeps, H.
Qed.

(** X20. No registration removes a name: in every loaded registry the
    seven built-in types and the nine built-in enums still resolve (to the
    built-in or to what replaced it), and so does the element tag of every
    aliased Collection sub-type, which is always one of the built-in
    types. *)
Theorem built_in_names_always_resolve :
  forall files dataPath isVerbose trace registry,
    readStructures files dataPath isVerbose = (trace, Done registry) ->
    (forall name,
        In name (NoesisBuiltInSubTypes ++ map fst NoesisBuiltInEnums) ->
        map_get (JStr name) registry <> None)
    /\ (forall subType,
          isAliased subType = true ->
          exists tag,
            noesisSubtypeToNoesisTypeConverter (JStr subType) = JStr tag
            /\ In tag NoesisBuiltInSubTypes
            /\ map_get (JStr tag) registry <> None).
Proof.
  intros files dataPath isVerbose trace registry H.
  apply readStructures_registry in H.
  assert (B : forall name,
             In name (NoesisBuiltInSubTypes ++ map fst NoesisBuiltInEnums) ->
             map_get (JStr name) registry <> None).
  { intros name Hn. subst registry. apply map_get_fold_keeps.
    vm_compute in Hn.
    repeat (destruct Hn as [<- | Hn]; [vm_compute; discriminate |]).
    contradiction. }
  split; [exact B |].
  intros subType HA. unfold isAliased in HA.
  repeat match type of HA with
         | _ || _ = true => apply orb_true_iff in HA; destruct HA as [HA | HA]
         end;
    apply String.eqb_eq in HA; subst subType; eexists;
    (split; [reflexivity |]); (split; [simpl; tauto |]);
    apply B; simpl; tauto.
Qed.

Lemma built_in_names_always_resolve_witness :
  map_get (JStr "Color") sampleRegistry <> None.
Proof.
  apply (proj1 (built_in_names_always_resolve sampleStructureFiles "data" false
                  [] sampleRegistry eq_refl)).
  simpl. tauto.
Defined.


(** ** Values of an enum type *)

Lemma map_get_In_key {V} k (m : jsmap V) v :
  map_get k m = Some v -> In (k, v) m.
Proof.
  induction m as [| [k' v'] m IH]; simpl; [discriminate |].
  destruct (same_key k' k) eqn:E.
  - intros [= <-]. apply same_key_eq in E. subst. now left.
  - intros H. right. now apply IH.
Qed.

(** X22. Against a loaded registry, a value of an enum type is encoded as
    the member reference [<Type>.<value>], where [<Type>] is the final
    segment of the requested type: the name under which the enum is found is
    the name it prints. *)
Theorem enum_values_are_member_references :
  forall files dataPath isVerbose trace registry indent structureType data
         indentLevel e,
    readStructures files dataPath isVerbose = (trace, Done registry) ->
    map_get (last_piece (split_on "." structureType)) registry
    = Some (Enum e) ->
    exists segment,
      finalSegmentOf structureType segment
      /\ processDataStructure registry indent (JStr structureType) data
           indentLevel
         = ret (segment ++ "." ++ to_string data).
Proof.
  intros files dataPath isVerbose trace registry indent structureType data
         indentLevel e HL HM.
  destruct (split_on_final "." structureType) as (segment & ES & Hc & Hs).
  exists segment. split; [split; assumption |].
  assert (N : enum_name e = JStr segment).
  { apply readStructures_registry in HL.
    pose proof (registrationsOf_shape files) as R.
    assert (SN : selfNamed registry).
    { subst registry. apply Forall_fold_set; [| apply selfNamed_builtIns].
      eapply Forall_impl; [| exact R]. now intros r [Hr _]. }
    unfold selfNamed in SN. rewrite Forall_forall in SN.
    rewrite ES in HM. apply map_get_In_key in HM.
    specialize (SN _ HM). cbn [fst snd name] in SN. now symmetry. }
  rewrite processDataStructure_eq. unfold processDataStructureBody.
  cbn [split]. rewrite bind_lift_done, HM, N. reflexivity.
Qed.

Lemma enum_values_are_member_references_witness :
  exists segment,
    finalSegmentOf "Ui.Orientation" segment
    /\ processDataStructure cardRegistry "" (JStr "Ui.Orientation")
         (JStr "Vertical") 2
       = ret (segment ++ "." ++ to_string (JStr "Vertical")).
Proof.
  apply (enum_values_are_member_references [("Card.xml", cardSchema)] "data"
           false [] cardRegistry "" "Ui.Orientation" (JStr "Vertical") 2
           (builtInEnum "Orientation" ["Horizontal"; "Vertical"])
           eq_refl eq_refl).
Defined.

(** ** Names of the data modules *)




